(** * ConsensusID: the TOPP tool that computes consensus peptide identifications

    A shallow embedding of [src/topp/ConsensusID.cpp] (class [TOPPConsensusID]:
    [registerOptionsAndFlags_], [setProteinIdentifications_] and [main_]) and
    the properties of its orchestration: which collaborators are called, in
    which order, with which parameters, and what is written where.

    The tool is an orchestrator.  The format readers and writers, the feature
    linker ([FeatureGroupingAlgorithmQT]), the five consensus scorers
    ([ConsensusIDAlgorithm*]), the clock and the version string live in other
    translation units; they are taken here as an interface ([Collaborators])
    and every theorem holds for all of its implementations. *)

Set Warnings "-inexact-float".
From Stdlib Require Import String ZArith List PrimFloat.
From stdpp Require Import base option list strings gmap fin_maps.

Open Scope string_scope.
Open Scope list_scope.

(** ** Scalars *)

(** A C++ [double] is an IEEE 754 binary64 value. *)
Abbreviation double := float.

(** [DateTime]: default constructed it is the null date; [DateTime::now()]
    yields the reading of the clock. *)
Inductive DateTime := NullDateTime | DateTimeAt (t : Z).

(** [FileTypes::Type].  The enumeration has one member per format OpenMS
    reads; the tool distinguishes three of them, the others are listed as far
    as they are needed to name a type that is none of the three. *)
Inductive FileTypes :=
  | UNKNOWN | DTA | MZDATA | MZXML | FEATUREXML | IDXML | CONSENSUSXML | MZML.

#[global] Instance FileTypes_eq_dec : EqDecision FileTypes.
Proof. solve_decision. Defined.

(** [TOPPBase::ExitCodes], the members that [main_] and its caller produce. *)
Inductive ExitCodes :=
  | EXECUTION_OK | INPUT_FILE_NOT_FOUND | ILLEGAL_PARAMETERS
  | MISSING_PARAMETERS | PARSE_ERROR | INCOMPATIBLE_INPUT_DATA.

(** Exceptions that leave [main_] uncaught. *)
Inductive Exception :=
  | UnregisteredParameter | WrongParameterType | RequiredParameterNotGiven
  | InvalidParameter | FileNotFound | ParseError.

(** ** [DataValue] and [Param] *)

Inductive DataValue :=
  | EmptyValue
  | StringValue (s : string)
  | IntValue (i : Z)
  | DoubleValue (d : double).

(** A [Param] maps a (colon separated) key to its value. *)
Abbreviation Param := (gmap string DataValue).

Definition setValue (key : string) (v : DataValue) (p : Param) : Param :=
  <[key := v]> p.

(** [key] without its first [String.length prefix] characters. *)
Definition strip_prefix (prefix key : string) : string :=
  substring (String.length prefix) (String.length key - String.length prefix) key.

(** [Param::copy(prefix, remove_prefix)]: the entries whose key starts with
    [prefix], the prefix removed from the keys on demand. *)
Definition copy (prefix : string) (remove_prefix : bool) (p : Param) : Param :=
  list_to_map
    (omap (λ kv : string * DataValue,
             if String.prefix prefix kv.1
             then Some (if remove_prefix then strip_prefix prefix kv.1 else kv.1, kv.2)
             else None)
          (map_to_list p)).

(** ** Identification records *)

Record PeptideHit := mkPeptideHit {
  hit_sequence : string;
  hit_score : double;
  hit_rank : nat
}.

(** A peptide identification: the run it belongs to, the precursor position
    (either coordinate may be missing) and the hits. *)
Record PeptideIdentification := mkPeptideIdentification {
  pep_identifier : string;
  pep_rt : option double;
  pep_mz : option double;
  pep_score_type : string;
  pep_hits : list PeptideHit
}.

(** Modelled from the spec: [PeptideIdentification::hasRT] is declared in a
    header that is not part of this translation unit.  The spec's events
    have an RT coordinate or lack it ("an event with RT present but m/z
    absent"), which is the [option] of the record. *)
Definition hasRT (p : PeptideIdentification) : bool := bool_decide (is_Some (pep_rt p)).

(** Modelled from the spec: [PeptideIdentification::hasMZ], as [hasRT]. *)
Definition hasMZ (p : PeptideIdentification) : bool := bool_decide (is_Some (pep_mz p)).

(** Modelled from the spec: [PeptideIdentification::getRT], the RT the event
    has.  The spec gives no value to the RT of an event that lacks it, and
    [main_] reads a coordinate only after [hasRT] and [hasMZ] have answered
    yes; the value chosen for that case here is never looked at by a
    statement below. *)
Definition getRT (p : PeptideIdentification) : double := default nan (pep_rt p).

(** Modelled from the spec: [PeptideIdentification::getMZ], as [getRT]. *)
Definition getMZ (p : PeptideIdentification) : double := default nan (pep_mz p).

(** Modelled from the spec: [PeptideIdentification::setRT].  The spec's
    consensus result is "annotated with the Group's centroid RT/m/z": setting
    the RT gives the event the value as its RT, whatever the value is. *)
Definition pep_setRT (rt : double) (p : PeptideIdentification) : PeptideIdentification :=
  {| pep_identifier := pep_identifier p; pep_rt := Some rt; pep_mz := pep_mz p;
     pep_score_type := pep_score_type p; pep_hits := pep_hits p |}.

(** Modelled from the spec: [PeptideIdentification::setMZ], as [pep_setRT]. *)
Definition pep_setMZ (mz : double) (p : PeptideIdentification) : PeptideIdentification :=
  {| pep_identifier := pep_identifier p; pep_rt := pep_rt p; pep_mz := Some mz;
     pep_score_type := pep_score_type p; pep_hits := pep_hits p |}.

(** The metadata of one identification run. *)
Record ProteinIdentification := mkProteinIdentification {
  prot_identifier : string;
  search_engine : string;
  search_engine_version : string;
  date_time : DateTime;
  protein_hits : list string
}.

(** [ProteinIdentification()] *)
Definition ProteinIdentification_default : ProteinIdentification :=
  {| prot_identifier := ""; search_engine := ""; search_engine_version := "";
     date_time := NullDateTime; protein_hits := [] |}.

Definition setDateTime (d : DateTime) (p : ProteinIdentification) : ProteinIdentification :=
  {| prot_identifier := prot_identifier p; search_engine := search_engine p;
     search_engine_version := search_engine_version p; date_time := d;
     protein_hits := protein_hits p |}.

Definition setSearchEngine (s : string) (p : ProteinIdentification) : ProteinIdentification :=
  {| prot_identifier := prot_identifier p; search_engine := s;
     search_engine_version := search_engine_version p; date_time := date_time p;
     protein_hits := protein_hits p |}.

Definition setSearchEngineVersion (s : string) (p : ProteinIdentification) : ProteinIdentification :=
  {| prot_identifier := prot_identifier p; search_engine := search_engine p;
     search_engine_version := s; date_time := date_time p;
     protein_hits := protein_hits p |}.

(** ** Features and maps *)

Record Feature := mkFeature {
  feat_rt : double;
  feat_mz : double;
  feat_ids : list PeptideIdentification
}.

(** [Feature()] *)
Definition Feature_default : Feature :=
  {| feat_rt := 0; feat_mz := 0; feat_ids := [] |}.

Definition feat_setRT (rt : double) (f : Feature) : Feature :=
  {| feat_rt := rt; feat_mz := feat_mz f; feat_ids := feat_ids f |}.
Definition feat_setMZ (mz : double) (f : Feature) : Feature :=
  {| feat_rt := feat_rt f; feat_mz := mz; feat_ids := feat_ids f |}.
Definition feat_setIds (ids : list PeptideIdentification) (f : Feature) : Feature :=
  {| feat_rt := feat_rt f; feat_mz := feat_mz f; feat_ids := ids |}.

Record FeatureMap := mkFeatureMap {
  fm_features : list Feature;
  fm_protein_identifications : list ProteinIdentification
}.

(** [FeatureMap()] *)
Definition FeatureMap_default : FeatureMap :=
  {| fm_features := []; fm_protein_identifications := [] |}.

Definition fm_push_back (f : Feature) (m : FeatureMap) : FeatureMap :=
  {| fm_features := fm_features m ++ [f];
     fm_protein_identifications := fm_protein_identifications m |}.

(** A consensus feature: the centroid of a group and the identifications
    attached to it. *)
Record ConsensusFeature := mkConsensusFeature {
  cf_rt : double;
  cf_mz : double;
  cf_ids : list PeptideIdentification
}.

Definition cf_setIds (ids : list PeptideIdentification) (f : ConsensusFeature) : ConsensusFeature :=
  {| cf_rt := cf_rt f; cf_mz := cf_mz f; cf_ids := ids |}.

Record ConsensusMap := mkConsensusMap {
  cm_features : list ConsensusFeature;
  cm_protein_identifications : list ProteinIdentification
}.

(** ** The consensus scorers *)

(** The subclass of [ConsensusIDAlgorithm] that [new] instantiates. *)
Inductive Algorithm := PEPMatrix | PEPIons | Best | Average | Ranks.

(** The scorer object behind the pointer [consensus]: its dynamic type and
    the parameters last given to [setParameters] (none yet after [new]). *)
Record Consensus := mkConsensus {
  cons_algorithm : Algorithm;
  cons_parameters : option (gmap string DataValue)
}.

(** ** Files, the world and the trace of collaborator calls *)

(** The records held by a file, as the readers deliver them. *)
Inductive FileData :=
  | IdXMLData (prot_ids : list ProteinIdentification)
              (pep_ids : list PeptideIdentification) (document_id : string)
  | FeatureXMLData (map : FeatureMap)
  | ConsensusXMLData (map : ConsensusMap)
  | OtherData (bytes : string).

(** One entry per call that leaves the translation unit. *)
Inductive Event :=
  | EvLoad (t : FileTypes) (name : string)
  | EvFatalError (msg : string)
  | EvGroup (linker_params : gmap string DataValue) (maps : list FeatureMap)
  | EvSetParameters (a : Algorithm) (algo_param : gmap string DataValue)
  | EvApply (c : Consensus) (ids : list PeptideIdentification)
  | EvNow
  | EvStore (t : FileTypes) (name : string).

Record World := mkWorld {
  fs : gmap string FileData;
  clock : Z;
  trace : list Event
}.

Definition log_event (e : Event) (w : World) : World :=
  {| fs := fs w; clock := clock w; trace := trace w ++ [e] |}.

Definition write_file (name : string) (d : FileData) (w : World) : World :=
  {| fs := <[name := d]> (fs w); clock := clock w; trace := trace w |}.

(** ** Control flow

    A statement completes normally with a value, returns from [main_] with an
    exit code, throws, or has undefined behaviour (indexing a vector out of
    range). *)
Inductive Flow (A : Type) :=
  | Normal (a : A)
  | Returned (c : ExitCodes)
  | Thrown (e : Exception)
  | Undefined.
Arguments Normal {A} a.
Arguments Returned {A} c.
Arguments Thrown {A} e.
Arguments Undefined {A}.

Definition M (A : Type) : Type := World → Flow A * World.

#[global] Instance M_ret : MRet M := λ A a w, (Normal a, w).

#[global] Instance M_bind : MBind M := λ A B f m w,
  match m w with
  | (Normal a, w') => f a w'
  | (Returned c, w') => (Returned c, w')
  | (Thrown e, w') => (Thrown e, w')
  | (Undefined, w') => (Undefined, w')
  end.

Definition return_ {A} (c : ExitCodes) : M A := λ w, (Returned c, w).
Definition throw {A} (e : Exception) : M A := λ w, (Thrown e, w).
Definition undefined {A} : M A := λ w, (Undefined, w).
Definition emit (e : Event) : M unit := λ w, (Normal tt, log_event e w).
Definition put_file (name : string) (d : FileData) : M unit :=
  λ w, (Normal tt, write_file name d w).
Definition liftE {A} (r : Exception + A) : M A :=
  match r with inl e => throw e | inr a => mret a end.

(** ** Registration of the options ([TOPPBase::register...], [setMin...])

    The help texts and argument names of the registrations are left out. *)

Inductive ParameterType := INPUT_FILE | OUTPUT_FILE | DOUBLE | INT | STRING.

Record ParameterInformation := mkParameterInformation {
  p_name : string;
  p_type : ParameterType;
  p_default : DataValue;
  p_required : bool;
  p_valid_strings : list string;
  p_min_int : option Z;
  p_min_float : option double
}.

Record Registry := mkRegistry {
  parameters : list ParameterInformation;
  subsections : list string
}.

Definition register (p : ParameterInformation) (r : Registry) : Registry :=
  {| parameters := parameters r ++ [p]; subsections := subsections r |}.

Definition registerInputFile_ (name default : string) (required : bool) : Registry → Registry :=
  register (mkParameterInformation name INPUT_FILE (StringValue default) required [] None None).
Definition registerOutputFile_ (name default : string) (required : bool) : Registry → Registry :=
  register (mkParameterInformation name OUTPUT_FILE (StringValue default) required [] None None).
Definition registerDoubleOption_ (name : string) (default : double) (required : bool) : Registry → Registry :=
  register (mkParameterInformation name DOUBLE (DoubleValue default) required [] None None).
Definition registerIntOption_ (name : string) (default : Z) (required : bool) : Registry → Registry :=
  register (mkParameterInformation name INT (IntValue default) required [] None None).
Definition registerStringOption_ (name default : string) (required : bool) : Registry → Registry :=
  register (mkParameterInformation name STRING (StringValue default) required [] None None).
Definition registerSubsection_ (name : string) (r : Registry) : Registry :=
  {| parameters := parameters r; subsections := subsections r ++ [name] |}.

(** Change the registered entry called [name]. *)
Definition restrict (name : string) (f : ParameterInformation → ParameterInformation)
    (r : Registry) : Registry :=
  {| parameters := (λ p, if String.eqb (p_name p) name then f p else p) <$> parameters r;
     subsections := subsections r |}.

Definition with_valid_strings (l : list string) (p : ParameterInformation) :=
  mkParameterInformation (p_name p) (p_type p) (p_default p) (p_required p) l
                         (p_min_int p) (p_min_float p).
Definition with_min_int (lo : Z) (p : ParameterInformation) :=
  mkParameterInformation (p_name p) (p_type p) (p_default p) (p_required p)
                         (p_valid_strings p) (Some lo) (p_min_float p).
Definition with_min_float (lo : double) (p : ParameterInformation) :=
  mkParameterInformation (p_name p) (p_type p) (p_default p) (p_required p)
                         (p_valid_strings p) (p_min_int p) (Some lo).

Definition setValidFormats_ (name : string) (formats : list string) := restrict name (with_valid_strings formats).
Definition setValidStrings_ (name : string) (l : list string) := restrict name (with_valid_strings l).
Definition setMinInt_ (name : string) (lo : Z) := restrict name (with_min_int lo).
Definition setMinFloat_ (name : string) (lo : double) := restrict name (with_min_float lo).

(** [TOPPConsensusID::registerOptionsAndFlags_], statement by statement. *)
Definition registerOptionsAndFlags_ : Registry :=
  let r := mkRegistry [] [] in
  let r := registerInputFile_ "in" "" true r in
  let r := setValidFormats_ "in" ["idXML"; "featureXML"; "consensusXML"] r in
  let r := registerOutputFile_ "out" "" true r in
  let r := setValidFormats_ "out" ["idXML"; "featureXML"; "consensusXML"] r in
  let r := registerDoubleOption_ "rt_delta" 0.1 false r in
  let r := setMinFloat_ "rt_delta" 0.0 r in
  let r := registerDoubleOption_ "mz_delta" 0.1 false r in
  let r := setMinFloat_ "mz_delta" 0.0 r in
  let r := registerIntOption_ "considered_hits" 10 false r in
  let r := setMinInt_ "considered_hits" 0 r in
  let r := registerStringOption_ "algorithm" "PEPMatrix" false r in
  let r := setValidStrings_ "algorithm" ["PEPMatrix"; "PEPIons"; "best"; "average"; "ranks"] r in
  let r := registerSubsection_ "PEPIons" r in
  let r := registerSubsection_ "PEPMatrix" r in
  r.

Definition findEntry_ (name : string) : option ParameterInformation :=
  List.find (λ p, String.eqb (p_name p) name) (parameters registerOptionsAndFlags_).

(** Modelled from the spec: the option getters of [TOPPBase]
    ([getStringOption_], [getDoubleOption_], [getIntOption_]) are not part of
    this translation unit.  Following the spec's configuration surface
    ("rt_delta >= 0, mz_delta >= 0, considered_hits >= 0, algorithm in
    {PEPMatrix, PEPIons, best, average, ranks}") and its InvalidConfiguration
    error ("detected before any grouping/scoring work begins"), a getter
    yields the value given on the command line, or the registered default, and
    throws when the value breaks the restriction registered for the option.
    The file formats registered for [in] and [out] are not enforced here. *)
Definition getStringOption_ (param : Param) (name : string) : Exception + string :=
  match findEntry_ name with
  | None => inl UnregisteredParameter
  | Some p =>
    match p_type p with
    | DOUBLE | INT => inl WrongParameterType
    | t =>
      match match param !! name with
            | Some (StringValue s) => Some s
            | Some EmptyValue | None =>
                match p_default p with StringValue s => Some s | _ => None end
            | Some _ => None
            end with
      | None => inl WrongParameterType
      | Some s =>
        if p_required p && String.eqb s "" then inl RequiredParameterNotGiven
        else match t, p_valid_strings p with
             | STRING, _ :: _ =>
                 if bool_decide (s ∈ p_valid_strings p) then inr s else inl InvalidParameter
             | _, _ => inr s
             end
      end
    end
  end.

(** Modelled from the spec: see [getStringOption_]. *)
Definition getDoubleOption_ (param : Param) (name : string) : Exception + double :=
  match findEntry_ name with
  | None => inl UnregisteredParameter
  | Some p =>
    match p_type p with
    | DOUBLE =>
      match match param !! name with
            | Some (DoubleValue d) => Some d
            | Some EmptyValue | None =>
                match p_default p with DoubleValue d => Some d | _ => None end
            | Some _ => None
            end with
      | None => inl WrongParameterType
      | Some d =>
        match p_min_float p with
        | Some lo => if PrimFloat.ltb d lo then inl InvalidParameter else inr d
        | None => inr d
        end
      end
    | _ => inl WrongParameterType
    end
  end.

(** Modelled from the spec: see [getStringOption_]. *)
Definition getIntOption_ (param : Param) (name : string) : Exception + Z :=
  match findEntry_ name with
  | None => inl UnregisteredParameter
  | Some p =>
    match p_type p with
    | INT =>
      match match param !! name with
            | Some (IntValue i) => Some i
            | Some EmptyValue | None =>
                match p_default p with IntValue i => Some i | _ => None end
            | Some _ => None
            end with
      | None => inl WrongParameterType
      | Some i =>
        match p_min_int p with
        | Some lo => if (i <? lo)%Z then inl InvalidParameter else inr i
        | None => inr i
        end
      end
    | _ => inl WrongParameterType
    end
  end.

(** ** The collaborators of the tool *)

Class Collaborators := {
  (** [FileHandler::getType]: the type of a file, from its name and content *)
  FileHandler_getType : gmap string FileData → string → FileTypes;
  (** [FeatureMap::updateRanges] *)
  updateRanges : FeatureMap → FeatureMap;
  (** [FeatureGroupingAlgorithmQT::getDefaults] *)
  linker_getDefaults : Param;
  (** [FeatureGroupingAlgorithmQT::group], under the linker's parameters *)
  linker_group : Param → list FeatureMap → ConsensusMap;
  (** [ConsensusIDAlgorithm::apply] of the scorer object, on the
      identifications of one group *)
  consensus_apply : Consensus → list PeptideIdentification → list PeptideIdentification;
  (** [VersionInfo::getVersion] *)
  VersionInfo_getVersion : string
}.

Definition size_value {A} (l : list A) : DataValue := IntValue (Z.of_nat (length l)).

(** [v[i]] of a [std::vector], updated in place by [f]. *)
Definition vector_update {A} (i : nat) (f : A → A) (v : list A) : M (list A) :=
  match v !! i with
  | Some x => mret (<[i := f x]> v)
  | None => undefined
  end.

(** [m[key]] of a [std::map<String, Size>]: a missing key is inserted with
    the value 0. *)
Definition map_subscript (key : string) (m : gmap string nat) : nat * gmap string nat :=
  match m !! key with
  | Some i => (i, m)
  | None => (0, <[key := 0]> m)
  end.

Definition newline : string := String (Ascii.ascii_of_nat 10) "".

Definition missing_position_message (run_id : string) : string :=
  ("Peptide ID without RT and/or m/z information found in identification run '"
   ++ run_id ++ "'." ++ newline
   ++ "Make sure that this information is included for all IDs when generating/converting search results. Aborting!")%string.

Section Tool.
Context `{Collaborators}.

Definition getType (name : string) : M FileTypes :=
  λ w, (Normal (FileHandler_getType (fs w) name), w).

(** The readers and writers of the three formats.  A reader delivers the
    records of the file, or throws when there is no such file or when it
    holds something else; a writer replaces the content of the file. *)

Definition read_file (name : string) : M FileData :=
  λ w, match fs w !! name with
       | Some d => (Normal d, w)
       | None => (Thrown FileNotFound, w)
       end.

Definition IdXMLFile_load (name : string)
  : M (list ProteinIdentification * list PeptideIdentification * string) :=
  emit (EvLoad IDXML name);;
  d ← read_file name;
  match d with
  | IdXMLData prot_ids pep_ids document_id => mret (prot_ids, pep_ids, document_id)
  | _ => throw ParseError
  end.

Definition FeatureXMLFile_load (name : string) : M FeatureMap :=
  emit (EvLoad FEATUREXML name);;
  d ← read_file name;
  match d with
  | FeatureXMLData map => mret map
  | _ => throw ParseError
  end.

Definition ConsensusXMLFile_load (name : string) : M ConsensusMap :=
  emit (EvLoad CONSENSUSXML name);;
  d ← read_file name;
  match d with
  | ConsensusXMLData map => mret map
  | _ => throw ParseError
  end.

Definition IdXMLFile_store (name : string) (prot_ids : list ProteinIdentification)
    (pep_ids : list PeptideIdentification) : M unit :=
  emit (EvStore IDXML name);;
  put_file name (IdXMLData prot_ids pep_ids "").

Definition FeatureXMLFile_store (name : string) (map : FeatureMap) : M unit :=
  emit (EvStore FEATUREXML name);;
  put_file name (FeatureXMLData map).

Definition ConsensusXMLFile_store (name : string) (map : ConsensusMap) : M unit :=
  emit (EvStore CONSENSUSXML name);;
  put_file name (ConsensusXMLData map).

Definition DateTime_now : M DateTime :=
  λ w, (Normal (DateTimeAt (clock w)), log_event EvNow w).

(** [linker.setParameters(linker_params); linker.group(maps, grouping)] *)
Definition group (linker_params : Param) (maps : list FeatureMap) : M ConsensusMap :=
  emit (EvGroup linker_params maps);;
  mret (linker_group linker_params maps).

(** [consensus->setParameters(algo_param)] *)
Definition setParameters (algo_param : Param) (consensus : Consensus) : M Consensus :=
  emit (EvSetParameters (cons_algorithm consensus) algo_param);;
  mret {| cons_algorithm := cons_algorithm consensus; cons_parameters := Some algo_param |}.

(** [consensus->apply(ids)]; the vector is changed in place. *)
Definition apply (consensus : Consensus) (ids : list PeptideIdentification)
  : M (list PeptideIdentification) :=
  emit (EvApply consensus ids);;
  mret (consensus_apply consensus ids).

(** [TOPPConsensusID::setProteinIdentifications_] *)
Definition setProteinIdentifications_ (prot_ids : list ProteinIdentification)
  : M (list ProteinIdentification) :=
  let prot_ids : list ProteinIdentification := [] in
  let prot_ids := resize 1 ProteinIdentification_default prot_ids in
  now ← DateTime_now;
  prot_ids ← vector_update 0 (setDateTime now) prot_ids;
  prot_ids ← vector_update 0 (setSearchEngine "OpenMS/ConsensusID") prot_ids;
  prot_ids ← vector_update 0 (setSearchEngineVersion VersionInfo_getVersion) prot_ids;
  mret prot_ids.

(** The local variables of [main_] that the three sections share. *)
Record Locals := mkLocals {
  consensus : Consensus;
  algo_param : Param
}.

(** [for (Size i = 0; i < prot_ids.size(); ++i)
       id_mapping[prot_ids[i].getIdentifier()] = i;] *)
Fixpoint index_runs (i : nat) (prot_ids : list ProteinIdentification)
    (id_mapping : gmap string nat) : gmap string nat :=
  match prot_ids with
  | [] => id_mapping
  | p :: rest => index_runs (S i) rest (<[prot_identifier p := i]> id_mapping)
  end.

(** The loop over [pep_ids] that turns every identification into a feature
    of the map of its run, or returns from [main_]. *)
Fixpoint fill_maps (pep_ids : list PeptideIdentification)
    (id_mapping : gmap string nat) (maps : list FeatureMap)
  : M (gmap string nat * list FeatureMap) :=
  match pep_ids with
  | [] => mret (id_mapping, maps)
  | pep :: rest =>
    let run_id := pep_identifier pep in
    if negb (hasRT pep) || negb (hasMZ pep) then
      emit (EvFatalError (missing_position_message run_id));;
      return_ INCOMPATIBLE_INPUT_DATA
    else
      let feature := Feature_default in
      let feature := feat_setRT (getRT pep) feature in
      let feature := feat_setMZ (getMZ pep) feature in
      let feature := feat_setIds (feat_ids feature ++ [pep]) feature in
      let '(i, id_mapping) := map_subscript run_id id_mapping in
      maps ← vector_update i (fm_push_back feature) maps;
      fill_maps rest id_mapping maps
  end.

(** The loop over the groups of the idXML section: score the group and
    collect its first identification at the position of the group.  (The
    consensus map itself, changed in place, is not used afterwards.) *)
Fixpoint score_groups (consensus : Consensus) (grouping : list ConsensusFeature)
    (pep_ids : list PeptideIdentification) : M (list PeptideIdentification) :=
  match grouping with
  | [] => mret pep_ids
  | it :: rest =>
    ids ← apply consensus (cf_ids it);
    match ids with
    | [] => score_groups consensus rest pep_ids
    | pep_id :: _ =>
      let pep_id := pep_setRT (cf_rt it) pep_id in
      let pep_id := pep_setMZ (cf_mz it) pep_id in
      score_groups consensus rest (pep_ids ++ [pep_id])
    end
  end.

(** [if (in_type == FileTypes::IDXML) { ... }] *)
Definition idXML_section (in_ out : string) (rt_delta mz_delta : double)
    (l : Locals) : M Locals :=
  '(prot_ids, pep_ids, document_id) ← IdXMLFile_load in_;
  let maps := replicate (length prot_ids) FeatureMap_default in
  let id_mapping := index_runs 0 prot_ids ∅ in
  '(id_mapping, maps) ← fill_maps pep_ids id_mapping maps;
  let maps := updateRanges <$> maps in
  let linker_params := linker_getDefaults in
  let linker_params := setValue "use_identifications" (StringValue "false") linker_params in
  let linker_params := setValue "ignore_charge" (StringValue "true") linker_params in
  let linker_params := setValue "distance_RT:max_difference" (DoubleValue rt_delta) linker_params in
  let linker_params := setValue "distance_MZ:max_difference" (DoubleValue mz_delta) linker_params in
  let linker_params := setValue "distance_MZ:unit" (StringValue "Da") linker_params in
  grouping ← group linker_params maps;
  let algo_param := setValue "number_of_runs" (size_value prot_ids) (algo_param l) in
  consensus ← setParameters algo_param (consensus l);
  let pep_ids : list PeptideIdentification := [] in
  pep_ids ← score_groups consensus (cm_features grouping) pep_ids;
  prot_ids ← setProteinIdentifications_ prot_ids;
  IdXMLFile_store out prot_ids pep_ids;;
  mret (mkLocals consensus algo_param).

(** The loop over the features of a featureXML map. *)
Fixpoint score_features (consensus : Consensus) (features : list Feature)
  : M (list Feature) :=
  match features with
  | [] => mret []
  | it :: rest =>
    ids ← apply consensus (feat_ids it);
    rest ← score_features consensus rest;
    mret (feat_setIds ids it :: rest)
  end.

(** [if (in_type == FileTypes::FEATUREXML) { ... }] *)
Definition featureXML_section (in_ out : string) (l : Locals) : M Locals :=
  map ← FeatureXMLFile_load in_;
  let algo_param :=
    setValue "ranks:number_of_runs" (size_value (fm_protein_identifications map))
             (algo_param l) in
  consensus ← setParameters algo_param (consensus l);
  features ← score_features consensus (fm_features map);
  prot_ids ← setProteinIdentifications_ (fm_protein_identifications map);
  FeatureXMLFile_store out (mkFeatureMap features prot_ids);;
  mret (mkLocals consensus algo_param).

(** The loop over the consensus features of a consensusXML map. *)
Fixpoint score_consensus_features (consensus : Consensus)
    (features : list ConsensusFeature) : M (list ConsensusFeature) :=
  match features with
  | [] => mret []
  | it :: rest =>
    ids ← apply consensus (cf_ids it);
    rest ← score_consensus_features consensus rest;
    mret (cf_setIds ids it :: rest)
  end.

(** [if (in_type == FileTypes::CONSENSUSXML) { ... }] *)
Definition consensusXML_section (in_ out : string) (l : Locals) : M Locals :=
  map ← ConsensusXMLFile_load in_;
  let algo_param :=
    setValue "ranks:number_of_runs" (size_value (cm_protein_identifications map))
             (algo_param l) in
  consensus ← setParameters algo_param (consensus l);
  features ← score_consensus_features consensus (cm_features map);
  prot_ids ← setProteinIdentifications_ (cm_protein_identifications map);
  ConsensusXMLFile_store out (mkConsensusMap features prot_ids);;
  mret (mkLocals consensus algo_param).

(** The scorer and the parameters of its subsection, by the name of the
    algorithm ([set up ConsensusID]). *)
Definition set_up (param : Param) (algorithm : string) : Locals :=
  if String.eqb algorithm "PEPMatrix" then
    mkLocals (mkConsensus PEPMatrix None) (copy "PEPMatrix:" true param)
  else if String.eqb algorithm "PEPIons" then
    mkLocals (mkConsensus PEPIons None) (copy "PEPIons:" true param)
  else if String.eqb algorithm "best" then
    mkLocals (mkConsensus Best None) ∅
  else if String.eqb algorithm "average" then
    mkLocals (mkConsensus Average None) ∅
  else
    mkLocals (mkConsensus Ranks None) ∅.

(** [TOPPConsensusID::main_]; [param] is what [getParam_()] holds.  The three
    sections are three [if]s in a row, not alternatives, and share the local
    variables; [delete consensus] leaves nothing to model. *)
Definition main_ (param : Param) : M False :=
  in_ ← liftE (getStringOption_ param "in");
  in_type ← getType in_;
  out ← liftE (getStringOption_ param "out");
  rt_delta ← liftE (getDoubleOption_ param "rt_delta");
  mz_delta ← liftE (getDoubleOption_ param "mz_delta");
  algorithm ← liftE (getStringOption_ param "algorithm");
  let l := set_up param algorithm in
  considered_hits ← liftE (getIntOption_ param "considered_hits");
  let l := mkLocals (consensus l)
                    (setValue "considered_hits" (IntValue considered_hits) (algo_param l)) in
  l ← (if decide (in_type = IDXML)
       then idXML_section in_ out rt_delta mz_delta l else mret l);
  l ← (if decide (in_type = FEATUREXML)
       then featureXML_section in_ out l else mret l);
  l ← (if decide (in_type = CONSENSUSXML)
       then consensusXML_section in_ out l else mret l);
  return_ EXECUTION_OK.

End Tool.

(** The options of one invocation, in the order in which [main_] reads them. *)
Record Options := mkOptions {
  opt_in : string;
  opt_out : string;
  opt_rt_delta : double;
  opt_mz_delta : double;
  opt_algorithm : string;
  opt_considered_hits : Z
}.

Definition read_options (param : Param) : Exception + Options :=
  match getStringOption_ param "in" with
  | inl e => inl e
  | inr in_ =>
  match getStringOption_ param "out" with
  | inl e => inl e
  | inr out =>
  match getDoubleOption_ param "rt_delta" with
  | inl e => inl e
  | inr rt_delta =>
  match getDoubleOption_ param "mz_delta" with
  | inl e => inl e
  | inr mz_delta =>
  match getStringOption_ param "algorithm" with
  | inl e => inl e
  | inr algorithm =>
  match getIntOption_ param "considered_hits" with
  | inl e => inl e
  | inr considered_hits =>
      inr (mkOptions in_ out rt_delta mz_delta algorithm considered_hits)
  end end end end end end.

(** ** A small instance of the interface, and inputs to run the tool on

    [ex_collaborators] stands in for the OpenMS library where a statement is
    evaluated on a concrete input: files are typed by their content, the
    linker joins the features that lie at exactly the same position, and the
    scorer pools the hits of a group into one identification (none when
    there is no hit). *)

Definition ex_getType (files : gmap string FileData) (name : string) : FileTypes :=
  match files !! name with
  | Some (IdXMLData _ _ _) => IDXML
  | Some (FeatureXMLData _) => FEATUREXML
  | Some (ConsensusXMLData _) => CONSENSUSXML
  | _ => UNKNOWN
  end.

Definition same_position (f : Feature) (g : ConsensusFeature) : bool :=
  PrimFloat.eqb (feat_rt f) (cf_rt g) && PrimFloat.eqb (feat_mz f) (cf_mz g).

Fixpoint ex_link_feature (f : Feature) (groups : list ConsensusFeature) : list ConsensusFeature :=
  match groups with
  | [] => [mkConsensusFeature (feat_rt f) (feat_mz f) (feat_ids f)]
  | g :: rest =>
    if same_position f g then cf_setIds (cf_ids g ++ feat_ids f) g :: rest
    else g :: ex_link_feature f rest
  end.

Definition ex_group (_ : Param) (maps : list FeatureMap) : ConsensusMap :=
  mkConsensusMap (foldl (λ gs f, ex_link_feature f gs) [] (concat (fm_features <$> maps))) [].

Definition ex_apply (_ : Consensus) (ids : list PeptideIdentification)
  : list PeptideIdentification :=
  match ids, concat (pep_hits <$> ids) with
  | first :: _, h :: hits =>
      [mkPeptideIdentification "" None None (pep_score_type first) (h :: hits)]
  | _, _ => []
  end.

Definition ex_linker_defaults : Param :=
  {[ "use_identifications" := StringValue "false";
     "ignore_charge" := StringValue "false";
     "distance_RT:max_difference" := DoubleValue 100;
     "distance_MZ:max_difference" := DoubleValue 0.3;
     "distance_MZ:unit" := StringValue "ppm" ]}.

Definition ex_collaborators : Collaborators :=
  {| FileHandler_getType := ex_getType;
     updateRanges := id;
     linker_getDefaults := ex_linker_defaults;
     linker_group := ex_group;
     consensus_apply := ex_apply;
     VersionInfo_getVersion := "2.0.0" |}.

Definition ex_run (name : string) : ProteinIdentification :=
  mkProteinIdentification name "Mascot" "2.4" (DateTimeAt 17) ["P1"].

Definition ex_pep (run : string) (rt mz : option double) (type : string)
    (seq : string) (score : double) : PeptideIdentification :=
  mkPeptideIdentification run rt mz type [mkPeptideHit seq score 1].

(** Three runs that report one spectrum at RT 100, m/z 500, and a spectrum
    without any hit at RT 200, m/z 600. *)
Definition ex_prot_ids : list ProteinIdentification :=
  [ex_run "A"; ex_run "B"; ex_run "C"].

Definition ex_pep_ids : list PeptideIdentification :=
  [ ex_pep "A" (Some 100%float) (Some 500%float) "Mascot" "PEPTIDEA" 0.5;
    ex_pep "B" (Some 100%float) (Some 500%float) "Mascot" "PEPTIDEA" 0.25;
    mkPeptideIdentification "B" (Some 200%float) (Some 600%float) "Mascot" [];
    ex_pep "C" (Some 100%float) (Some 500%float) "Mascot" "PEPTIDEB" 0.75 ].

(** The same records, the second one without m/z. *)
Definition ex_pep_ids_no_mz : list PeptideIdentification :=
  [ ex_pep "A" (Some 100%float) (Some 500%float) "Mascot" "PEPTIDEA" 0.5;
    ex_pep "B" (Some 100%float) None "Mascot" "PEPTIDEA" 0.25;
    ex_pep "C" (Some 100%float) (Some 500%float) "Mascot" "PEPTIDEB" 0.75 ].

Definition ex_feature_map : FeatureMap :=
  mkFeatureMap [mkFeature 100 500 ex_pep_ids_no_mz] ex_prot_ids.

Definition ex_consensus_map : ConsensusMap :=
  mkConsensusMap [mkConsensusFeature 100 500 ex_pep_ids_no_mz] ex_prot_ids.

Definition ex_files : gmap string FileData :=
  {[ "flat.idXML" := IdXMLData ex_prot_ids ex_pep_ids "doc";
     "flat_no_mz.idXML" := IdXMLData ex_prot_ids ex_pep_ids_no_mz "doc";
     "features.featureXML" := FeatureXMLData ex_feature_map;
     "groups.consensusXML" := ConsensusXMLData ex_consensus_map;
     "spectra.mzML" := OtherData "<mzML/>" ]}.

Definition ex_world (now : Z) : World :=
  {| fs := ex_files; clock := now; trace := [] |}.

Definition ex_param (in_ out algorithm : string) : Param :=
  {[ "in" := StringValue in_; "out" := StringValue out;
     "algorithm" := StringValue algorithm ]}.

(** The options [main_] reads from [ex_param]: the tolerances and the number
    of considered hits are the registered defaults. *)
Definition ex_options (in_ out algorithm : string) : Options :=
  mkOptions in_ out 0.1 0.1 algorithm 10.

(** ** Vocabulary of the statements *)

(** [w] with the events [evs] added to its trace. *)
Definition add_events (evs : list Event) (w : World) : World :=
  {| fs := fs w; clock := clock w; trace := trace w ++ evs |}.

(** Both coordinates of the precursor are there. *)
Definition has_position (p : PeptideIdentification) : bool := hasRT p && hasMZ p.

(** The parameters the linker is given. *)
Definition linker_params_of `{Collaborators} (o : Options) : Param :=
  <["distance_MZ:unit" := StringValue "Da"]>
  (<["distance_MZ:max_difference" := DoubleValue (opt_mz_delta o)]>
  (<["distance_RT:max_difference" := DoubleValue (opt_rt_delta o)]>
  (<["ignore_charge" := StringValue "true"]>
  (<["use_identifications" := StringValue "false"]> linker_getDefaults)))).

(** The scorer parameters before a section adds the number of runs. *)
Definition base_param (param : Param) (o : Options) : Param :=
  <["considered_hits" := IntValue (opt_considered_hits o)]>
    (algo_param (set_up param (opt_algorithm o))).

Definition algorithm_of (param : Param) (o : Options) : Algorithm :=
  cons_algorithm (consensus (set_up param (opt_algorithm o))).

(** The scorer of the idXML section, once configured. *)
Definition flat_scorer (param : Param) (o : Options) (runs : nat) : Consensus :=
  mkConsensus (algorithm_of param o)
              (Some (<["number_of_runs" := IntValue (Z.of_nat runs)]> (base_param param o))).

(** The scorer of the featureXML and consensusXML sections, once configured. *)
Definition map_scorer (param : Param) (o : Options) (runs : nat) : Consensus :=
  mkConsensus (algorithm_of param o)
              (Some (<["ranks:number_of_runs" := IntValue (Z.of_nat runs)]> (base_param param o))).

(** What one group adds to the output of the idXML section: nothing when the
    scorer leaves no identification, else the first identification it leaves,
    placed at the centroid of the group. *)
Definition consensus_of_group `{Collaborators} (c : Consensus) (g : ConsensusFeature)
  : list PeptideIdentification :=
  match consensus_apply c (cf_ids g) with
  | [] => []
  | best :: _ => [pep_setMZ (cf_mz g) (pep_setRT (cf_rt g) best)]
  end.

Definition collected `{Collaborators} (c : Consensus) (grouping : list ConsensusFeature)
  : list PeptideIdentification :=
  concat (consensus_of_group c <$> grouping).

Definition rescored_feature `{Collaborators} (c : Consensus) (f : Feature) : Feature :=
  feat_setIds (consensus_apply c (feat_ids f)) f.

Definition rescored_consensus_feature `{Collaborators} (c : Consensus) (f : ConsensusFeature)
  : ConsensusFeature :=
  cf_setIds (consensus_apply c (cf_ids f)) f.

(** The record that describes the consensus computation as a run. *)
Definition consensus_run `{Collaborators} (now : Z) : ProteinIdentification :=
  {| prot_identifier := ""; search_engine := "OpenMS/ConsensusID";
     search_engine_version := VersionInfo_getVersion;
     date_time := DateTimeAt now; protein_hits := [] |}.

(** The run metadata a file holds. *)
Definition run_metadata (d : FileData) : list ProteinIdentification :=
  match d with
  | IdXMLData prot_ids _ _ => prot_ids
  | FeatureXMLData map => fm_protein_identifications map
  | ConsensusXMLData map => cm_protein_identifications map
  | OtherData _ => []
  end.

(** The peptide identifications a file holds. *)
Definition identifications (d : FileData) : list PeptideIdentification :=
  match d with
  | IdXMLData _ pep_ids _ => pep_ids
  | FeatureXMLData map => concat (feat_ids <$> fm_features map)
  | ConsensusXMLData map => concat (cf_ids <$> cm_features map)
  | OtherData _ => []
  end.

(** The type under which a file of these records is read. *)
Definition data_type (d : FileData) : FileTypes :=
  match d with
  | IdXMLData _ _ _ => IDXML
  | FeatureXMLData _ => FEATUREXML
  | ConsensusXMLData _ => CONSENSUSXML
  | OtherData _ => UNKNOWN
  end.

(** A file with its time stamps blanked. *)
Definition erase_date (p : ProteinIdentification) : ProteinIdentification :=
  setDateTime NullDateTime p.

Definition erase_dates (d : FileData) : FileData :=
  match d with
  | IdXMLData prot_ids pep_ids doc => IdXMLData (erase_date <$> prot_ids) pep_ids doc
  | FeatureXMLData map =>
      FeatureXMLData (mkFeatureMap (fm_features map)
                                   (erase_date <$> fm_protein_identifications map))
  | ConsensusXMLData map =>
      ConsensusXMLData (mkConsensusMap (cm_features map)
                                       (erase_date <$> cm_protein_identifications map))
  | OtherData b => OtherData b
  end.

Definition is_group_event (e : Event) : bool :=
  match e with EvGroup _ _ => true | _ => false end.
Definition is_apply_event (e : Event) : bool :=
  match e with EvApply _ _ => true | _ => false end.
Definition is_now_event (e : Event) : bool :=
  match e with EvNow => true | _ => false end.

(** An input the tool runs to the end on: an idXML file needs a run, and a
    position for every identification. *)
Definition complete_input (d : FileData) : bool :=
  match d with
  | IdXMLData prot_ids pep_ids _ =>
      match prot_ids with [] => false | _ :: _ => forallb has_position pep_ids end
  | FeatureXMLData _ | ConsensusXMLData _ => true
  | OtherData _ => false
  end.

(** A configuration outside the registered ranges: a negative tolerance, a
    negative number of considered hits, or an algorithm that is not one of
    the five. *)
Definition invalid_configuration (param : Param) : Prop :=
  (∃ d, param !! "rt_delta" = Some (DoubleValue d) ∧ PrimFloat.ltb d 0 = true)
  ∨ (∃ d, param !! "mz_delta" = Some (DoubleValue d) ∧ PrimFloat.ltb d 0 = true)
  ∨ (∃ i, param !! "considered_hits" = Some (IntValue i) ∧ (i < 0)%Z)
  ∨ (∃ s, param !! "algorithm" = Some (StringValue s)
          ∧ s ∉ ["PEPMatrix"; "PEPIons"; "best"; "average"; "ranks"]).

(** [main_] from the first section on, the options read. *)
Definition sections `{Collaborators} (in_type : FileTypes) (o : Options) (l : Locals)
  : M False :=
  l ← (if decide (in_type = IDXML)
       then idXML_section (opt_in o) (opt_out o) (opt_rt_delta o) (opt_mz_delta o) l
       else mret l);
  l ← (if decide (in_type = FEATUREXML)
       then featureXML_section (opt_in o) (opt_out o) l else mret l);
  l ← (if decide (in_type = CONSENSUSXML)
       then consensusXML_section (opt_in o) (opt_out o) l else mret l);
  return_ EXECUTION_OK.

Definition start_locals (param : Param) (o : Options) : Locals :=
  mkLocals (consensus (set_up param (opt_algorithm o))) (base_param param o).

(** A computation that leaves the world as it is. *)
Definition still {A} (m : M A) : Prop :=
  ∃ r, ∀ w, m w = (r, w).

(** A computation that reads no file but [name], holding [input], and only
    adds to the trace: its result and the events it adds depend on nothing
    else in the world. *)
Definition quiet {A} (name : string) (input : option FileData) (m : M A) : Prop :=
  ∃ r evs, ∀ w, fs w !! name = input → m w = (r, add_events evs w).

(** A computation that reads no file but [name], holding [input], adds to
    the trace and writes at most one file, the clock reaching nothing but
    the time stamps of it. *)
Definition stamping {A} (name : string) (input : option FileData) (m : M A) : Prop :=
  ∃ r evs (o : option (string * (Z → FileData))),
    (∀ w, fs w !! name = input →
       m w = (r, mkWorld (match o with
                          | Some (out, d) => <[out := d (clock w)]> (fs w)
                          | None => fs w
                          end) (clock w) (trace w ++ evs)))
    ∧ (∀ out d, o = Some (out, d) → ∀ t1 t2, erase_dates (d t1) = erase_dates (d t2)).

(** ** The defaults of the subsections *)

(** [ConsensusIDAlgorithmPEPMatrix().getDefaults()] and
    [ConsensusIDAlgorithmPEPIons().getDefaults()]. *)
Class ScorerDefaults := {
  PEPMatrix_getDefaults : Param;
  PEPIons_getDefaults : Param
}.

(** [Param::remove(key)] for the key of an entry. *)
Definition remove (key : string) (p : Param) : Param := delete key p.

(** [TOPPConsensusID::getSubsectionDefaults_] *)
Definition getSubsectionDefaults_ `{ScorerDefaults} (section : string) : Param :=
  let algo_param :=
    if String.eqb section "PEPMatrix" then PEPMatrix_getDefaults
    else PEPIons_getDefaults in
  let algo_param := remove "considered_hits" algo_param in
  algo_param.

(** A second invocation, one second later, on the files the first one
    left: they hold its output beside the input. *)
Definition ex_world_retry : World :=
  {| fs := fs (@main_ ex_collaborators (ex_param "flat.idXML" "out.idXML" "best")
                      (ex_world 1)).2;
     clock := 2; trace := [] |}.

(** An idXML file without any run, in which the first identification has
    its position and the second one lacks m/z. *)
Definition ex_world_no_run_no_mz : World :=
  {| fs := {[ "no_run_no_mz.idXML" := IdXMLData [] ex_pep_ids_no_mz "doc" ]};
     clock := 0; trace := [] |}.

(** An idXML file without any run, and runs of which two have the same
    identifier. *)
Definition ex_world_no_run : World :=
  {| fs := {[ "no_run.idXML" := IdXMLData [] ex_pep_ids "doc" ]}; clock := 0; trace := [] |}.

Definition ex_prot_ids_twice : list ProteinIdentification :=
  [ex_run "A"; ex_run "B"; ex_run "B"].

(** ** Vocabulary of the statements about the whole of [main_] *)

(** The feature the idXML section makes of an identification. *)
Definition feature_of (pep : PeptideIdentification) : Feature :=
  {| feat_rt := getRT pep; feat_mz := getMZ pep; feat_ids := [pep] |}.

(** The map an identification goes to under [id_mapping]: the one of its
    run, and the first one when its run is not known. *)
Definition run_index (id_mapping : gmap string nat) (pep : PeptideIdentification) : nat :=
  default 0 (id_mapping !! pep_identifier pep).

(** Stated from the claim C4, without the setters of the identification:
    what a group gives to the output is nothing when the scorer leaves no
    identification in it, else the first identification the scorer leaves,
    with the RT and the m/z of the group for its own. *)
Definition first_at_centroid `{Collaborators} (c : Consensus) (g : ConsensusFeature)
  : option PeptideIdentification :=
  match consensus_apply c (cf_ids g) with
  | [] => None
  | first :: _ =>
      Some {| pep_identifier := pep_identifier first;
              pep_rt := Some (cf_rt g); pep_mz := Some (cf_mz g);
              pep_score_type := pep_score_type first; pep_hits := pep_hits first |}
  end.

(** The idXML section indexes the vector of maps out of range: there is no
    run, hence no map, and the first identification has its position. *)
Definition out_of_range (prot_ids : list ProteinIdentification)
    (pep_ids : list PeptideIdentification) : bool :=
  match prot_ids, pep_ids with
  | [], pep :: _ => has_position pep
  | _, _ => false
  end.

(** The idXML section returns for a missing position: an identification
    lacks one and the loop gets as far as to see it. *)
Definition aborts (prot_ids : list ProteinIdentification)
    (pep_ids : list PeptideIdentification) : bool :=
  match prot_ids, pep_ids with
  | [], [] => false
  | [], pep :: _ => negb (has_position pep)
  | _ :: _, _ => negb (forallb has_position pep_ids)
  end.

(** The records on which the section of their type runs to its end. *)
Definition runs_to_end (d : FileData) : bool :=
  match d with
  | IdXMLData prot_ids pep_ids _ =>
      negb (aborts prot_ids pep_ids) && negb (out_of_range prot_ids pep_ids)
  | FeatureXMLData _ | ConsensusXMLData _ => true
  | OtherData _ => false
  end.

(** The ways in which [main_] ends on the world [w], with the world it
    leaves. *)
Inductive Outcome `{Collaborators} (param : Param) (w : World)
  : Flow False * World → Prop :=
  | options_rejected e :
      read_options param = inl e →
      Outcome param w (Thrown e, w)
  | nothing_to_do o :
      read_options param = inr o →
      FileHandler_getType (fs w) (opt_in o) ∉ [IDXML; FEATUREXML; CONSENSUSXML] →
      Outcome param w (Returned EXECUTION_OK, w)
  | load_failed o e :
      read_options param = inr o →
      FileHandler_getType (fs w) (opt_in o) ∈ [IDXML; FEATUREXML; CONSENSUSXML] →
      (∀ d, fs w !! opt_in o = Some d →
            data_type d ≠ FileHandler_getType (fs w) (opt_in o)) →
      Outcome param w
        (Thrown e, add_events [EvLoad (FileHandler_getType (fs w) (opt_in o)) (opt_in o)] w)
  | position_missing o prot_ids pep_ids doc run_id :
      read_options param = inr o →
      FileHandler_getType (fs w) (opt_in o) = IDXML →
      fs w !! opt_in o = Some (IdXMLData prot_ids pep_ids doc) →
      aborts prot_ids pep_ids = true →
      Outcome param w
        (Returned INCOMPATIBLE_INPUT_DATA,
         add_events [EvLoad IDXML (opt_in o);
                     EvFatalError (missing_position_message run_id)] w)
  | vector_out_of_range o prot_ids pep_ids doc :
      read_options param = inr o →
      FileHandler_getType (fs w) (opt_in o) = IDXML →
      fs w !! opt_in o = Some (IdXMLData prot_ids pep_ids doc) →
      out_of_range prot_ids pep_ids = true →
      Outcome param w (Undefined, add_events [EvLoad IDXML (opt_in o)] w)
  | completed o d d' linking c p scored :
      read_options param = inr o →
      FileHandler_getType (fs w) (opt_in o) = data_type d →
      fs w !! opt_in o = Some d →
      runs_to_end d = true →
      data_type d' = data_type d →
      cons_parameters c = Some p →
      p !! "considered_hits" = Some (IntValue (opt_considered_hits o)) →
      (linking = [] ∨ ∃ linker_params maps, linking = [EvGroup linker_params maps]) →
      Outcome param w
        (Returned EXECUTION_OK,
         mkWorld (<[opt_out o := d']> (fs w)) (clock w)
                 (trace w ++ [EvLoad (data_type d) (opt_in o)] ++ linking ++
                  [EvSetParameters (cons_algorithm c) p] ++ (EvApply c <$> scored) ++
                  [EvNow; EvStore (data_type d) (opt_out o)])).

(** * Verification *)

(** ** The trace and the control flow *)

Lemma add_events_nil w : add_events [] w = w.
Proof. destruct w. unfold add_events. simpl. by rewrite app_nil_r. Qed.

Lemma add_events_app evs1 evs2 w :
  add_events evs2 (add_events evs1 w) = add_events (evs1 ++ evs2) w.
Proof. unfold add_events. simpl. by rewrite app_assoc. Qed.

Lemma log_event_add e w : log_event e w = add_events [e] w.
Proof. reflexivity. Qed.

Lemma bind_unfold {A B} (m : M A) (f : A → M B) w :
  (m ≫= f) w =
  match m w with
  | (Normal a, w') => f a w'
  | (Returned c, w') => (Returned c, w')
  | (Thrown e, w') => (Thrown e, w')
  | (Undefined, w') => (Undefined, w')
  end.
Proof. reflexivity. Qed.

Lemma bind_normal {A B} (m : M A) (f : A → M B) w a w' :
  m w = (Normal a, w') → (m ≫= f) w = f a w'.
Proof. intros E. by rewrite bind_unfold, E. Qed.

Lemma still_ret {A} (a : A) : still (mret a).
Proof. by exists (Normal a). Qed.

Lemma still_return {A} c : still (@return_ A c).
Proof. by exists (Returned c). Qed.

Lemma still_liftE {A} (r : Exception + A) : still (liftE r).
Proof. destruct r; [by eexists (Thrown _) | apply still_ret]. Qed.

Lemma still_vector_update {A} i (f : A → A) v : still (vector_update i f v).
Proof. unfold vector_update. destruct (v !! i); [apply still_ret | by exists Undefined]. Qed.

Lemma still_bind {A B} (m : M A) (f : A → M B) :
  still m → (∀ a, still (f a)) → still (m ≫= f).
Proof.
  intros [r Hm] Hf. destruct r as [a| | |].
  - destruct (Hf a) as [r' Hr']. exists r'. intros w.
    by rewrite bind_unfold, Hm, Hr'.
  - exists (Returned c). intros w. by rewrite bind_unfold, Hm.
  - exists (Thrown e). intros w. by rewrite bind_unfold, Hm.
  - exists Undefined. intros w. by rewrite bind_unfold, Hm.
Qed.

Lemma quiet_still {A} name input (m : M A) : still m → quiet name input m.
Proof. intros [r Hm]. exists r, []. intros w _. by rewrite add_events_nil. Qed.

Lemma quiet_emit name input e : quiet name input (emit e).
Proof. by exists (Normal tt), [e]. Qed.

Lemma quiet_bind {A B} name input (m : M A) (f : A → M B) :
  quiet name input m → (∀ a, quiet name input (f a)) → quiet name input (m ≫= f).
Proof.
  intros (r & evs & Hm) Hf. destruct r as [a| | |].
  - destruct (Hf a) as (r' & evs' & Hr'). exists r', (evs ++ evs'). intros w Hw.
    rewrite bind_unfold, Hm by done. rewrite Hr' by done. by rewrite add_events_app.
  - exists (Returned c), evs. intros w Hw. by rewrite bind_unfold, Hm.
  - exists (Thrown e), evs. intros w Hw. by rewrite bind_unfold, Hm.
  - exists Undefined, evs. intros w Hw. by rewrite bind_unfold, Hm.
Qed.

Lemma stamping_quiet {A} name input (m : M A) : quiet name input m → stamping name input m.
Proof.
  intros (r & evs & Hm). exists r, evs, None. split; [|done].
  intros w Hw. by rewrite Hm.
Qed.

Lemma stamping_bind_quiet {A B} name input (m : M A) (f : A → M B) :
  quiet name input m → (∀ a, stamping name input (f a)) → stamping name input (m ≫= f).
Proof.
  intros (r & evs & Hm) Hf. destruct r as [a| | |].
  - destruct (Hf a) as (r' & evs' & o & Hr' & Ho). exists r', (evs ++ evs'), o.
    split; [|done]. intros w Hw.
    rewrite bind_unfold, Hm by done. rewrite Hr' by done. simpl. by rewrite app_assoc.
  - apply stamping_quiet. exists (Returned c), evs. intros w Hw. by rewrite bind_unfold, Hm.
  - apply stamping_quiet. exists (Thrown e), evs. intros w Hw. by rewrite bind_unfold, Hm.
  - apply stamping_quiet. exists Undefined, evs. intros w Hw. by rewrite bind_unfold, Hm.
Qed.

Lemma stamping_bind_still {A B} name input (m : M A) (f : A → M B) :
  stamping name input m → (∀ a, still (f a)) → stamping name input (m ≫= f).
Proof.
  intros (r & evs & o & Hm & Ho) Hf. destruct r as [a| | |].
  - destruct (Hf a) as [r' Hr']. exists r', evs, o. split; [|done].
    intros w Hw. by rewrite bind_unfold, Hm, Hr'.
  - exists (Returned c), evs, o. split; [|done]. intros w Hw. by rewrite bind_unfold, Hm.
  - exists (Thrown e), evs, o. split; [|done]. intros w Hw. by rewrite bind_unfold, Hm.
  - exists Undefined, evs, o. split; [|done]. intros w Hw. by rewrite bind_unfold, Hm.
Qed.

Lemma still_throw {A} e : still (@throw A e).
Proof. by exists (Thrown e). Qed.

Lemma still_undefined {A} : still (@undefined A).
Proof. by exists Undefined. Qed.

Create HintDb flow.
#[global] Hint Resolve still_ret still_return still_throw still_undefined still_liftE
  still_vector_update quiet_emit : flow.

(** ** The calls of the collaborators and the loops *)

Section Orchestration.
Context `{Collaborators}.

Lemma quiet_read_file name input : quiet name input (read_file name).
Proof.
  unfold read_file. destruct input as [d|].
  - exists (Normal d), []. intros w Hw. by rewrite Hw, add_events_nil.
  - exists (Thrown FileNotFound), []. intros w Hw. by rewrite Hw, add_events_nil.
Qed.

Ltac quiet_steps :=
  repeat first
    [ apply quiet_emit | apply quiet_read_file
    | apply quiet_still; solve [auto with flow]
    | apply quiet_bind; [|intros ?] ].

Lemma quiet_IdXMLFile_load name input : quiet name input (IdXMLFile_load name).
Proof. unfold IdXMLFile_load. quiet_steps. destruct a0; quiet_steps. Qed.

Lemma quiet_FeatureXMLFile_load name input : quiet name input (FeatureXMLFile_load name).
Proof. unfold FeatureXMLFile_load. quiet_steps. destruct a0; quiet_steps. Qed.

Lemma quiet_ConsensusXMLFile_load name input : quiet name input (ConsensusXMLFile_load name).
Proof. unfold ConsensusXMLFile_load. quiet_steps. destruct a0; quiet_steps. Qed.

Lemma quiet_group name input p maps : quiet name input (group p maps).
Proof. unfold group. quiet_steps. Qed.

Lemma quiet_setParameters name input p c : quiet name input (setParameters p c).
Proof. unfold setParameters. quiet_steps. Qed.

Lemma quiet_apply name input c ids : quiet name input (apply c ids).
Proof. unfold apply. quiet_steps. Qed.

Lemma quiet_fill_maps name input pep_ids id_mapping maps :
  quiet name input (fill_maps pep_ids id_mapping maps).
Proof.
  revert id_mapping maps. induction pep_ids as [|pep rest IH]; intros; simpl.
  - quiet_steps.
  - destruct (negb (hasRT pep) || negb (hasMZ pep)); [quiet_steps|].
    destruct (map_subscript _ _) as [i idm]. quiet_steps. apply IH.
Qed.

Lemma quiet_score_groups name input c grouping pep_ids :
  quiet name input (score_groups c grouping pep_ids).
Proof.
  revert pep_ids. induction grouping as [|it rest IH]; intros; simpl.
  - quiet_steps.
  - apply quiet_bind; [apply quiet_apply|]. intros [|? ?]; apply IH.
Qed.

Lemma quiet_score_features name input c features :
  quiet name input (score_features c features).
Proof.
  induction features as [|it rest IH]; simpl.
  - quiet_steps.
  - apply quiet_bind; [apply quiet_apply|]. intros ids.
    apply quiet_bind; [apply IH|]. intros; quiet_steps.
Qed.

Lemma quiet_score_consensus_features name input c features :
  quiet name input (score_consensus_features c features).
Proof.
  induction features as [|it rest IH]; simpl.
  - quiet_steps.
  - apply quiet_bind; [apply quiet_apply|]. intros ids.
    apply quiet_bind; [apply IH|]. intros; quiet_steps.
Qed.

(** What the loops compute. *)

Lemma apply_spec c ids w :
  apply c ids w = (Normal (consensus_apply c ids), add_events [EvApply c ids] w).
Proof. reflexivity. Qed.

Lemma score_groups_spec c grouping pep_ids w :
  score_groups c grouping pep_ids w =
  (Normal (pep_ids ++ collected c grouping),
   add_events ((λ g, EvApply c (cf_ids g)) <$> grouping) w).
Proof.
  revert pep_ids w. induction grouping as [|it rest IH]; intros; simpl.
  - unfold collected. simpl. by rewrite app_nil_r, add_events_nil.
  - rewrite bind_unfold, apply_spec. unfold collected, consensus_of_group. simpl.
    destruct (consensus_apply c (cf_ids it)) as [|best ?]; rewrite IH, add_events_app; simpl.
    + done.
    + by rewrite <- app_assoc.
Qed.

Lemma score_features_spec c features w :
  score_features c features w =
  (Normal (rescored_feature c <$> features),
   add_events ((λ f, EvApply c (feat_ids f)) <$> features) w).
Proof.
  revert w. induction features as [|it rest IH]; intros; simpl.
  - by rewrite add_events_nil.
  - rewrite bind_unfold, apply_spec, bind_unfold, IH, add_events_app. done.
Qed.

Lemma score_consensus_features_spec c features w :
  score_consensus_features c features w =
  (Normal (rescored_consensus_feature c <$> features),
   add_events ((λ f, EvApply c (cf_ids f)) <$> features) w).
Proof.
  revert w. induction features as [|it rest IH]; intros; simpl.
  - by rewrite add_events_nil.
  - rewrite bind_unfold, apply_spec, bind_unfold, IH, add_events_app. done.
Qed.

Lemma setProteinIdentifications_spec prot_ids w :
  setProteinIdentifications_ prot_ids w =
  (Normal [consensus_run (clock w)], add_events [EvNow] w).
Proof. reflexivity. Qed.

End Orchestration.

(** ** The paths through [main_] *)

Section Paths.
Context `{Collaborators}.

Lemma main_options_rejected param e w :
  read_options param = inl e → main_ param w = (Thrown e, w).
Proof.
  unfold read_options, main_. intros Hr.
  destruct (getStringOption_ param "in") as [?|in_]; [by simplify_eq|].
  rewrite bind_unfold. simpl. rewrite bind_unfold. simpl.
  destruct (getStringOption_ param "out") as [?|out]; [by simplify_eq|].
  rewrite bind_unfold. simpl.
  destruct (getDoubleOption_ param "rt_delta") as [?|rt]; [by simplify_eq|].
  rewrite bind_unfold. simpl.
  destruct (getDoubleOption_ param "mz_delta") as [?|mz]; [by simplify_eq|].
  rewrite bind_unfold. simpl.
  destruct (getStringOption_ param "algorithm") as [?|alg]; [by simplify_eq|].
  rewrite bind_unfold. simpl.
  destruct (getIntOption_ param "considered_hits") as [?|hits]; by simplify_eq.
Qed.

Lemma main_options_read param o w :
  read_options param = inr o →
  main_ param w =
  sections (FileHandler_getType (fs w) (opt_in o)) o (start_locals param o) w.
Proof.
  unfold read_options, main_. intros Hr.
  destruct (getStringOption_ param "in") as [?|in_]; [by simplify_eq|].
  destruct (getStringOption_ param "out") as [?|out]; [by simplify_eq|].
  destruct (getDoubleOption_ param "rt_delta") as [?|rt]; [by simplify_eq|].
  destruct (getDoubleOption_ param "mz_delta") as [?|mz]; [by simplify_eq|].
  destruct (getStringOption_ param "algorithm") as [?|alg]; [by simplify_eq|].
  destruct (getIntOption_ param "considered_hits") as [?|hits]; [by simplify_eq|].
  simplify_eq. reflexivity.
Qed.

Lemma index_runs_bound prot_ids : ∀ i id_mapping n,
  i + length prot_ids = n →
  map_Forall (λ _ v, v < n) id_mapping →
  map_Forall (λ _ v, v < n) (index_runs i prot_ids id_mapping).
Proof.
  induction prot_ids as [|p rest IH]; intros i idm n Hn Hb; simpl in *; [done|].
  apply (IH (S i)); [lia|]. apply map_Forall_insert_2; [lia|done].
Qed.

(** Looking up a run never leaves the vector of maps when there is a map. *)
Lemma map_subscript_bound run_id (id_mapping : gmap string nat) n i id_mapping' :
  0 < n → map_Forall (λ _ v, v < n) id_mapping →
  map_subscript run_id id_mapping = (i, id_mapping') →
  i < n ∧ map_Forall (λ _ v, v < n) id_mapping'.
Proof.
  intros Hn Hb. unfold map_subscript.
  destruct (id_mapping !! run_id) as [j|] eqn:E; intros ?; simplify_eq.
  - split; [|done]. by apply (Hb run_id).
  - split; [done|]. by apply map_Forall_insert_2.
Qed.

Lemma position_test pep :
  negb (hasRT pep) || negb (hasMZ pep) = negb (has_position pep).
Proof. unfold has_position. by destruct (hasRT pep), (hasMZ pep). Qed.

Lemma fill_maps_ok pep_ids : ∀ id_mapping maps,
  0 < length maps →
  map_Forall (λ _ v, v < length maps) id_mapping →
  forallb has_position pep_ids = true →
  ∃ id_mapping' maps',
    length maps' = length maps ∧
    ∀ w, fill_maps pep_ids id_mapping maps w = (Normal (id_mapping', maps'), w).
Proof.
  induction pep_ids as [|pep rest IH]; intros idm maps Hn Hb Hall; simpl in *.
  - by exists idm, maps.
  - apply andb_true_iff in Hall as [Hp Hall]. rewrite position_test, Hp. simpl.
    destruct (map_subscript _ idm) as [i idm'] eqn:E.
    destruct (map_subscript_bound _ _ _ _ _ Hn Hb E) as [Hi Hb'].
    destruct (lookup_lt_is_Some_2 maps i Hi) as [m Hm].
    unfold vector_update. rewrite Hm.
    match goal with |- context [<[i := ?x]> maps] =>
      destruct (IH idm' (<[i := x]> maps)) as (idm'' & maps' & Hlen & Hrun)
    end; rewrite ?length_insert; try done.
    exists idm'', maps'. split; [by rewrite Hlen, length_insert|].
    intros w. rewrite bind_unfold. simpl. apply Hrun.
Qed.

Lemma fill_maps_missing pep_ids : ∀ id_mapping maps,
  0 < length maps →
  map_Forall (λ _ v, v < length maps) id_mapping →
  forallb has_position pep_ids = false →
  ∃ run_id,
    ∀ w, fill_maps pep_ids id_mapping maps w =
         (Returned INCOMPATIBLE_INPUT_DATA,
          add_events [EvFatalError (missing_position_message run_id)] w).
Proof.
  induction pep_ids as [|pep rest IH]; intros idm maps Hn Hb Hall; simpl in *; [done|].
  rewrite position_test. destruct (has_position pep) eqn:Hp; simpl in *.
  - destruct (map_subscript _ idm) as [i idm'] eqn:E.
    destruct (map_subscript_bound _ _ _ _ _ Hn Hb E) as [Hi Hb'].
    destruct (lookup_lt_is_Some_2 maps i Hi) as [m Hm].
    unfold vector_update. rewrite Hm.
    match goal with |- context [<[i := ?x]> maps] =>
      destruct (IH idm' (<[i := x]> maps)) as (run_id & Hrun)
    end; rewrite ?length_insert; try done.
    exists run_id. intros w. rewrite bind_unfold. simpl. apply Hrun.
  - exists (pep_identifier pep). reflexivity.
Qed.

End Paths.

Section Runs.
Context `{Collaborators}.
Variables (param : Param) (o : Options).
Hypothesis Hoptions : read_options param = inr o.

Lemma IdXMLFile_load_spec name prot_ids pep_ids doc w :
  fs w !! name = Some (IdXMLData prot_ids pep_ids doc) →
  IdXMLFile_load name w =
  (Normal (prot_ids, pep_ids, doc), add_events [EvLoad IDXML name] w).
Proof.
  intros Hf. unfold IdXMLFile_load. rewrite bind_unfold. simpl.
  rewrite bind_unfold. unfold read_file. simpl. by rewrite Hf.
Qed.

Lemma FeatureXMLFile_load_spec name map w :
  fs w !! name = Some (FeatureXMLData map) →
  FeatureXMLFile_load name w = (Normal map, add_events [EvLoad FEATUREXML name] w).
Proof.
  intros Hf. unfold FeatureXMLFile_load. rewrite bind_unfold. simpl.
  rewrite bind_unfold. unfold read_file. simpl. by rewrite Hf.
Qed.

Lemma ConsensusXMLFile_load_spec name map w :
  fs w !! name = Some (ConsensusXMLData map) →
  ConsensusXMLFile_load name w = (Normal map, add_events [EvLoad CONSENSUSXML name] w).
Proof.
  intros Hf. unfold ConsensusXMLFile_load. rewrite bind_unfold. simpl.
  rewrite bind_unfold. unfold read_file. simpl. by rewrite Hf.
Qed.

(** The maps of an idXML input are filled without leaving the vector. *)
Lemma maps_in_range (prot_ids : list ProteinIdentification) :
  prot_ids ≠ [] →
  0 < length (replicate (length prot_ids) FeatureMap_default) ∧
  map_Forall (λ _ v, v < length (replicate (length prot_ids) FeatureMap_default))
             (index_runs 0 prot_ids ∅).
Proof.
  intros Hne. rewrite length_replicate. split.
  - destruct prot_ids; [done|simpl; lia].
  - apply index_runs_bound; [done|]. apply map_Forall_empty.
Qed.

(** An idXML input with a run and all positions: the whole run. *)
Lemma flat_run prot_ids pep_ids doc w :
  FileHandler_getType (fs w) (opt_in o) = IDXML →
  fs w !! opt_in o = Some (IdXMLData prot_ids pep_ids doc) →
  prot_ids ≠ [] →
  forallb has_position pep_ids = true →
  ∃ maps,
    length maps = length prot_ids ∧
    let c := flat_scorer param o (length prot_ids) in
    let grouping := cm_features (linker_group (linker_params_of o) maps) in
    main_ param w =
    (Returned EXECUTION_OK,
     mkWorld (<[opt_out o :=
                  IdXMLData [consensus_run (clock w)] (collected c grouping) ""]> (fs w))
             (clock w)
             (trace w ++
              [EvLoad IDXML (opt_in o); EvGroup (linker_params_of o) maps;
               EvSetParameters (cons_algorithm c) (default ∅ (cons_parameters c))] ++
              ((λ g, EvApply c (cf_ids g)) <$> grouping) ++
              [EvNow; EvStore IDXML (opt_out o)])).
Proof.
  intros Ht Hf Hne Hall.
  destruct (maps_in_range prot_ids Hne) as [Hn Hb].
  destruct (fill_maps_ok pep_ids _ _ Hn Hb Hall) as (idm & maps & Hlen & Hfill).
  exists (updateRanges <$> maps). split.
  { by rewrite length_fmap, Hlen, length_replicate. }
  intros c grouping. rewrite (main_options_read _ _ _ Hoptions), Ht.
  unfold sections, idXML_section, group, setParameters. simpl.
  repeat (rewrite ?bind_unfold, ?(IdXMLFile_load_spec _ _ _ _ _ Hf), ?Hfill,
            ?score_groups_spec, ?setProteinIdentifications_spec; simpl).
  f_equal. unfold write_file, add_events, log_event. simpl. f_equal.
  by rewrite <- !app_assoc.
Qed.

(** An idXML input with a run and an identification without position. *)
Lemma flat_abort prot_ids pep_ids doc w :
  FileHandler_getType (fs w) (opt_in o) = IDXML →
  fs w !! opt_in o = Some (IdXMLData prot_ids pep_ids doc) →
  prot_ids ≠ [] →
  forallb has_position pep_ids = false →
  ∃ run_id,
    main_ param w =
    (Returned INCOMPATIBLE_INPUT_DATA,
     add_events [EvLoad IDXML (opt_in o);
                 EvFatalError (missing_position_message run_id)] w).
Proof.
  intros Ht Hf Hne Hbad.
  destruct (maps_in_range prot_ids Hne) as [Hn Hb].
  destruct (fill_maps_missing pep_ids _ _ Hn Hb Hbad) as (run_id & Hfill).
  exists run_id. rewrite (main_options_read _ _ _ Hoptions), Ht.
  unfold sections. simpl. rewrite bind_unfold. unfold idXML_section.
  rewrite bind_unfold, (IdXMLFile_load_spec _ _ _ _ _ Hf).
  rewrite bind_unfold, Hfill. by rewrite add_events_app.
Qed.

(** A featureXML input: the whole run. *)
Lemma feature_run map w :
  FileHandler_getType (fs w) (opt_in o) = FEATUREXML →
  fs w !! opt_in o = Some (FeatureXMLData map) →
  let c := map_scorer param o (length (fm_protein_identifications map)) in
  main_ param w =
  (Returned EXECUTION_OK,
   mkWorld (<[opt_out o :=
                FeatureXMLData (mkFeatureMap (rescored_feature c <$> fm_features map)
                                             [consensus_run (clock w)])]> (fs w))
           (clock w)
           (trace w ++
            [EvLoad FEATUREXML (opt_in o);
             EvSetParameters (cons_algorithm c) (default ∅ (cons_parameters c))] ++
            ((λ f, EvApply c (feat_ids f)) <$> fm_features map) ++
            [EvNow; EvStore FEATUREXML (opt_out o)])).
Proof.
  intros Ht Hf c. rewrite (main_options_read _ _ _ Hoptions), Ht.
  unfold sections, featureXML_section, setParameters. simpl.
  repeat (rewrite ?bind_unfold, ?(FeatureXMLFile_load_spec _ _ _ Hf),
            ?score_features_spec, ?setProteinIdentifications_spec; simpl).
  f_equal. unfold write_file, add_events, log_event. simpl. f_equal.
  by rewrite <- !app_assoc.
Qed.

(** A consensusXML input: the whole run. *)
Lemma consensus_map_run map w :
  FileHandler_getType (fs w) (opt_in o) = CONSENSUSXML →
  fs w !! opt_in o = Some (ConsensusXMLData map) →
  let c := map_scorer param o (length (cm_protein_identifications map)) in
  main_ param w =
  (Returned EXECUTION_OK,
   mkWorld (<[opt_out o :=
                ConsensusXMLData
                  (mkConsensusMap (rescored_consensus_feature c <$> cm_features map)
                                  [consensus_run (clock w)])]> (fs w))
           (clock w)
           (trace w ++
            [EvLoad CONSENSUSXML (opt_in o);
             EvSetParameters (cons_algorithm c) (default ∅ (cons_parameters c))] ++
            ((λ f, EvApply c (cf_ids f)) <$> cm_features map) ++
            [EvNow; EvStore CONSENSUSXML (opt_out o)])).
Proof.
  intros Ht Hf c. rewrite (main_options_read _ _ _ Hoptions), Ht.
  unfold sections, consensusXML_section, setParameters. simpl.
  repeat (rewrite ?bind_unfold, ?(ConsensusXMLFile_load_spec _ _ _ Hf),
            ?score_consensus_features_spec, ?setProteinIdentifications_spec; simpl).
  f_equal. unfold write_file, add_events, log_event. simpl. f_equal.
  by rewrite <- !app_assoc.
Qed.

(** Any other type of input. *)
Lemma other_run w :
  FileHandler_getType (fs w) (opt_in o) ≠ IDXML →
  FileHandler_getType (fs w) (opt_in o) ≠ FEATUREXML →
  FileHandler_getType (fs w) (opt_in o) ≠ CONSENSUSXML →
  main_ param w = (Returned EXECUTION_OK, w).
Proof.
  intros H1 H2 H3. rewrite (main_options_read _ _ _ Hoptions).
  unfold sections. by repeat case_decide.
Qed.

End Runs.

(** ** The clock reaches the output through the time stamp only *)

Section Stamping.
Context `{Collaborators}.

Lemma erase_consensus_run t1 t2 :
  erase_date (consensus_run t1) = erase_date (consensus_run t2).
Proof. reflexivity. Qed.

Lemma stamping_store {A} name input (prot_ids : list ProteinIdentification)
    (store : list ProteinIdentification → M unit) (a : A) t out
    (d : list ProteinIdentification → FileData) :
  (∀ p, store p = (emit (EvStore t out);; put_file out (d p))) →
  (∀ t1 t2, erase_dates (d [consensus_run t1]) = erase_dates (d [consensus_run t2])) →
  stamping name input (p ← setProteinIdentifications_ prot_ids; store p;; mret a).
Proof.
  intros Hstore Hd.
  exists (Normal a), [EvNow; EvStore t out], (Some (out, λ now, d [consensus_run now])).
  split.
  - intros w _. rewrite bind_unfold, setProteinIdentifications_spec, Hstore.
    rewrite !bind_unfold. simpl. unfold write_file. simpl. by rewrite <- app_assoc.
  - intros ? ? [= <- <-] t1 t2. apply Hd.
Qed.

Lemma stamping_idXML_section input in_ out rt_delta mz_delta l :
  stamping in_ input (idXML_section in_ out rt_delta mz_delta l).
Proof.
  unfold idXML_section.
  apply stamping_bind_quiet; [apply quiet_IdXMLFile_load|]. intros [[prot_ids pep_ids] doc].
  apply stamping_bind_quiet; [apply quiet_fill_maps|]. intros [idm maps].
  apply stamping_bind_quiet; [apply quiet_group|]. intros grouping.
  apply stamping_bind_quiet; [apply quiet_setParameters|]. intros c.
  apply stamping_bind_quiet; [apply quiet_score_groups|]. intros ids.
  by apply (stamping_store _ _ _ (λ p, IdXMLFile_store out p ids) _ IDXML out
                           (λ p, IdXMLData p ids "")).
Qed.

Lemma stamping_featureXML_section input in_ out l :
  stamping in_ input (featureXML_section in_ out l).
Proof.
  unfold featureXML_section.
  apply stamping_bind_quiet; [apply quiet_FeatureXMLFile_load|]. intros map.
  apply stamping_bind_quiet; [apply quiet_setParameters|]. intros c.
  apply stamping_bind_quiet; [apply quiet_score_features|]. intros features.
  by apply (stamping_store _ _ _ (λ p, FeatureXMLFile_store out (mkFeatureMap features p))
                           _ FEATUREXML out (λ p, FeatureXMLData (mkFeatureMap features p))).
Qed.

Lemma stamping_consensusXML_section input in_ out l :
  stamping in_ input (consensusXML_section in_ out l).
Proof.
  unfold consensusXML_section.
  apply stamping_bind_quiet; [apply quiet_ConsensusXMLFile_load|]. intros map.
  apply stamping_bind_quiet; [apply quiet_setParameters|]. intros c.
  apply stamping_bind_quiet; [apply quiet_score_consensus_features|]. intros features.
  by apply (stamping_store _ _ _ (λ p, ConsensusXMLFile_store out (mkConsensusMap features p))
                           _ CONSENSUSXML out
                           (λ p, ConsensusXMLData (mkConsensusMap features p))).
Qed.

Lemma stamping_sections input in_type o l :
  stamping (opt_in o) input (sections in_type o l).
Proof.
  unfold sections. destruct in_type; simpl;
    try (apply stamping_quiet, quiet_still;
         repeat (apply still_bind; [apply still_ret|intros ?]); apply still_return).
  - apply stamping_bind_quiet; [apply quiet_still, still_ret|]. intros ?.
    apply stamping_bind_still; [apply stamping_featureXML_section|]. intros ?.
    apply still_bind; [apply still_ret|]. intros ?. apply still_return.
  - apply stamping_bind_still; [apply stamping_idXML_section|]. intros ?.
    repeat (apply still_bind; [apply still_ret|intros ?]); apply still_return.
  - apply stamping_bind_quiet; [apply quiet_still, still_ret|]. intros ?.
    apply stamping_bind_quiet; [apply quiet_still, still_ret|]. intros ?.
    apply stamping_bind_still; [apply stamping_consensusXML_section|]. intros ?.
    apply still_return.
Qed.

End Stamping.

(** ** The registered restrictions *)

Lemma getDoubleOption_below_minimum (param : Param) name d :
  name = "rt_delta" ∨ name = "mz_delta" →
  param !! name = Some (DoubleValue d) → PrimFloat.ltb d 0 = true →
  getDoubleOption_ param name = inl InvalidParameter.
Proof.
  intros [-> | ->] Hp Hd; unfold getDoubleOption_.
  - change (findEntry_ "rt_delta") with
      (Some (mkParameterInformation "rt_delta" DOUBLE (DoubleValue 0.1) false [] None (Some 0%float))).
    simpl. by rewrite Hp, Hd.
  - change (findEntry_ "mz_delta") with
      (Some (mkParameterInformation "mz_delta" DOUBLE (DoubleValue 0.1) false [] None (Some 0%float))).
    simpl. by rewrite Hp, Hd.
Qed.

Lemma getIntOption_below_minimum (param : Param) i :
  param !! "considered_hits" = Some (IntValue i) → (i < 0)%Z →
  getIntOption_ param "considered_hits" = inl InvalidParameter.
Proof.
  intros Hp Hi. unfold getIntOption_.
  change (findEntry_ "considered_hits") with
    (Some (mkParameterInformation "considered_hits" INT (IntValue 10) false [] (Some 0%Z) None)).
  simpl. rewrite Hp. by destruct (Z.ltb_spec i 0); [|lia].
Qed.

Lemma getStringOption_unknown_algorithm (param : Param) s :
  param !! "algorithm" = Some (StringValue s) →
  s ∉ ["PEPMatrix"; "PEPIons"; "best"; "average"; "ranks"] →
  getStringOption_ param "algorithm" = inl InvalidParameter.
Proof.
  intros Hp Hs. unfold getStringOption_.
  change (findEntry_ "algorithm") with
    (Some (mkParameterInformation "algorithm" STRING (StringValue "PEPMatrix") false
             ["PEPMatrix"; "PEPIons"; "best"; "average"; "ranks"] None None)).
  simpl. rewrite Hp. by rewrite bool_decide_eq_false_2.
Qed.

Lemma invalid_configuration_not_read param :
  invalid_configuration param → ∃ e, read_options param = inl e.
Proof.
  unfold read_options. intros Hinv.
  destruct (getStringOption_ param "in"); [by eexists|].
  destruct (getStringOption_ param "out"); [by eexists|].
  destruct Hinv as [(d & Hp & Hd) | Hinv].
  { rewrite (getDoubleOption_below_minimum param "rt_delta" d); by eauto. }
  destruct (getDoubleOption_ param "rt_delta"); [by eexists|].
  destruct Hinv as [(d & Hp & Hd) | Hinv].
  { rewrite (getDoubleOption_below_minimum param "mz_delta" d); by eauto. }
  destruct (getDoubleOption_ param "mz_delta"); [by eexists|].
  destruct Hinv as [(i & Hp & Hi) | (a & Hp & Ha)].
  - destruct (getStringOption_ param "algorithm"); [by eexists|].
    rewrite (getIntOption_below_minimum param i); by eauto.
  - rewrite (getStringOption_unknown_algorithm param a); by eauto.
Qed.

(** ** Lists of events *)

Lemma no_now_in_applies {A} (c : Consensus) (f : A → list PeptideIdentification) l :
  existsb is_now_event ((λ x, EvApply c (f x)) <$> l) = false.
Proof. by induction l. Qed.

Lemma no_group_in_applies {A} (c : Consensus) (f : A → list PeptideIdentification) l :
  existsb is_group_event ((λ x, EvApply c (f x)) <$> l) = false.
Proof. by induction l. Qed.

Lemma forallb_false_of_elem {A} (f : A → bool) (l : list A) x :
  x ∈ l → f x = false → forallb f l = false.
Proof.
  intros Hx Hf. destruct (forallb f l) eqn:E; [|done].
  rewrite forallb_forall in E. apply list_elem_of_In in Hx. by rewrite (E x Hx) in Hf.
Qed.

Lemma collected_app `{Collaborators} c l1 l2 :
  collected c (l1 ++ l2) = collected c l1 ++ collected c l2.
Proof. unfold collected. by rewrite fmap_app, concat_app. Qed.

Lemma collected_cons `{Collaborators} c g l :
  collected c (g :: l) = consensus_of_group c g ++ collected c l.
Proof. reflexivity. Qed.

Lemma complete_flat prot_ids pep_ids doc :
  complete_input (IdXMLData prot_ids pep_ids doc) = true →
  prot_ids ≠ [] ∧ forallb has_position pep_ids = true.
Proof. by destruct prot_ids. Qed.

(** ** The tool on the example inputs *)

Example ex_flat_end_to_end :
  let r := @main_ ex_collaborators (ex_param "flat.idXML" "out.idXML" "best")
                  (ex_world 1000) in
  r.1 = Returned EXECUTION_OK
  ∧ length (List.filter is_apply_event (trace r.2)) = 2
  ∧ fs r.2 !! "out.idXML" =
      Some (IdXMLData
              [mkProteinIdentification "" "OpenMS/ConsensusID" "2.0.0" (DateTimeAt 1000) []]
              [mkPeptideIdentification "" (Some 100%float) (Some 500%float) "Mascot"
                 [mkPeptideHit "PEPTIDEA" 0.5 1; mkPeptideHit "PEPTIDEA" 0.25 1;
                  mkPeptideHit "PEPTIDEB" 0.75 1]]
              "").
Proof. by vm_compute. Qed.

Example ex_flat_without_mz :
  let r := @main_ ex_collaborators (ex_param "flat_no_mz.idXML" "out.idXML" "best")
                  (ex_world 1000) in
  r.1 = Returned INCOMPATIBLE_INPUT_DATA
  ∧ fs r.2 !! "out.idXML" = None
  ∧ trace r.2 = [EvLoad IDXML "flat_no_mz.idXML";
                 EvFatalError (missing_position_message "B")].
Proof. by vm_compute. Qed.

Example ex_negative_tolerance :
  @main_ ex_collaborators
         (<["mz_delta" := DoubleValue (-0.5)]> (ex_param "flat.idXML" "out.idXML" "best"))
         (ex_world 1000)
  = (Thrown InvalidParameter, ex_world 1000).
Proof. by vm_compute. Qed.

Example ex_unknown_algorithm :
  @main_ ex_collaborators (ex_param "flat.idXML" "out.idXML" "median") (ex_world 1000)
  = (Thrown InvalidParameter, ex_world 1000).
Proof. by vm_compute. Qed.

Example ex_copy_subsection :
  copy "PEPMatrix:" true
       (<["PEPMatrix:penalty" := IntValue 5]> (ex_param "flat.idXML" "out.idXML" "PEPMatrix"))
  = {[ "penalty" := IntValue 5 ]}.
Proof. by vm_compute. Qed.

(** * The claims *)

(** C5.  Every input shape, on a run that reaches the end: the run metadata
    of the output is exactly one record, with the search engine
    "OpenMS/ConsensusID", the reading of the clock as date and the version
    of the build; the metadata of the input are gone.  The clock is read
    once, after all the scoring, right before the output is stored. *)
Theorem output_metadata_is_one_fresh_run `{Collaborators} (param : Param) (o : Options)
    (d : FileData) (w : World) :
  read_options param = inr o →
  fs w !! opt_in o = Some d →
  FileHandler_getType (fs w) (opt_in o) = data_type d →
  complete_input d = true →
  ∃ d' before,
    main_ param w =
      (Returned EXECUTION_OK,
       mkWorld (<[opt_out o := d']> (fs w)) (clock w)
               (trace w ++ before ++ [EvNow; EvStore (data_type d) (opt_out o)]))
    ∧ existsb is_now_event before = false
    ∧ data_type d' = data_type d
    ∧ run_metadata d' =
        [ {| prot_identifier := ""; search_engine := "OpenMS/ConsensusID";
             search_engine_version := VersionInfo_getVersion;
             date_time := DateTimeAt (clock w); protein_hits := [] |} ].
Proof.
  intros Hr Hf Ht Hc. destruct d as [prot_ids pep_ids doc|map|map|]; simpl in Ht.
  - apply complete_flat in Hc as [Hne Hall].
    destruct (flat_run param o Hr prot_ids pep_ids doc w Ht Hf Hne Hall) as (maps & _ & Hrun).
    simpl in Hrun. eexists.
    exists ([EvLoad IDXML (opt_in o); EvGroup (linker_params_of o) maps;
             EvSetParameters (algorithm_of param o)
               (<["number_of_runs" := IntValue (Z.of_nat (length prot_ids))]>
                  (base_param param o))] ++
            ((λ g, EvApply (flat_scorer param o (length prot_ids)) (cf_ids g)) <$>
             cm_features (linker_group (linker_params_of o) maps))).
    split_and!; [|by rewrite existsb_app, no_now_in_applies| |].
    + rewrite Hrun. simpl. rewrite <- ?app_assoc. reflexivity.
    + done.
    + done.
  - pose proof (feature_run param o Hr map w Ht Hf) as Hrun. simpl in Hrun. eexists.
    exists ([EvLoad FEATUREXML (opt_in o);
             EvSetParameters (algorithm_of param o)
               (<["ranks:number_of_runs" :=
                    IntValue (Z.of_nat (length (fm_protein_identifications map)))]>
                  (base_param param o))] ++
            ((λ f, EvApply (map_scorer param o (length (fm_protein_identifications map)))
                           (feat_ids f)) <$> fm_features map)).
    split_and!; [|by rewrite existsb_app, no_now_in_applies| |].
    + rewrite Hrun. simpl. rewrite <- ?app_assoc. reflexivity.
    + done.
    + done.
  - pose proof (consensus_map_run param o Hr map w Ht Hf) as Hrun. simpl in Hrun. eexists.
    exists ([EvLoad CONSENSUSXML (opt_in o);
             EvSetParameters (algorithm_of param o)
               (<["ranks:number_of_runs" :=
                    IntValue (Z.of_nat (length (cm_protein_identifications map)))]>
                  (base_param param o))] ++
            ((λ f, EvApply (map_scorer param o (length (cm_protein_identifications map)))
                           (cf_ids f)) <$> cm_features map)).
    split_and!; [|by rewrite existsb_app, no_now_in_applies| |].
    + rewrite Hrun. simpl. rewrite <- ?app_assoc. reflexivity.
    + done.
    + done.
  - done.
Qed.

(** C6, as amended.  Two invocations with the same configuration on the same
    input file (the same records, detected as the same type), whatever else
    the two file systems hold, whatever their clocks and earlier traces: they
    end in the same way and call the collaborators in the same way, and
    either both leave their files as they are or both write the same output
    file and nothing else, with the same content up to the time stamp of the
    run metadata, which is the time of the invocation; invoked at the same
    clock reading they write identical content.  (The linker and the scorers
    are functions here.) *)
Theorem output_determined_up_to_timestamp `{Collaborators} (param : Param)
    (w1 w2 : World) :
  (∀ o, read_options param = inr o →
        fs w1 !! opt_in o = fs w2 !! opt_in o
        ∧ FileHandler_getType (fs w1) (opt_in o) = FileHandler_getType (fs w2) (opt_in o)) →
  ∃ evs,
    (main_ param w1).1 = (main_ param w2).1
    ∧ trace (main_ param w1).2 = trace w1 ++ evs
    ∧ trace (main_ param w2).2 = trace w2 ++ evs
    ∧ ((fs (main_ param w1).2 = fs w1 ∧ fs (main_ param w2).2 = fs w2)
       ∨ ∃ out d1 d2,
           fs (main_ param w1).2 = <[out := d1]> (fs w1)
           ∧ fs (main_ param w2).2 = <[out := d2]> (fs w2)
           ∧ erase_dates d1 = erase_dates d2
           ∧ (clock w1 = clock w2 → d1 = d2)).
Proof.
  intros Hsame. destruct (read_options param) as [e|o] eqn:Hr.
  { exists []. rewrite !(main_options_rejected _ _ _ Hr). simpl.
    rewrite !app_nil_r. split_and!; try done. by left. }
  destruct (Hsame o eq_refl) as [Hin Ht].
  destruct (stamping_sections (fs w1 !! opt_in o) (FileHandler_getType (fs w1) (opt_in o))
                              o (start_locals param o)) as (r & evs & out & Hrun & Hout).
  exists evs. rewrite !(main_options_read _ _ _ Hr), <- Ht.
  rewrite (Hrun w1 eq_refl), (Hrun w2 (eq_sym Hin)). simpl.
  split_and!; try done.
  destruct out as [[out d]|]; [right|by left].
  exists out, (d (clock w1)), (d (clock w2)). split_and!; try done.
  - by apply (Hout out d).
  - by intros ->.
Qed.

(** C7.  On flat input that runs to the end the linker is called once, with
    the charge ignored, the m/z tolerance in Da, the RT tolerance equal to
    the option [rt_delta] and the m/z tolerance equal to the option
    [mz_delta]. *)
Theorem linker_invocation_parameters `{Collaborators} (param : Param) (o : Options)
    (prot_ids : list ProteinIdentification) (pep_ids : list PeptideIdentification)
    (doc : string) (w : World) :
  read_options param = inr o →
  FileHandler_getType (fs w) (opt_in o) = IDXML →
  fs w !! opt_in o = Some (IdXMLData prot_ids pep_ids doc) →
  complete_input (IdXMLData prot_ids pep_ids doc) = true →
  ∃ linker_params maps before after,
    trace (main_ param w).2 = trace w ++ before ++ EvGroup linker_params maps :: after
    ∧ existsb is_group_event before = false
    ∧ existsb is_group_event after = false
    ∧ linker_params !! "ignore_charge" = Some (StringValue "true")
    ∧ linker_params !! "distance_MZ:unit" = Some (StringValue "Da")
    ∧ linker_params !! "distance_RT:max_difference" = Some (DoubleValue (opt_rt_delta o))
    ∧ linker_params !! "distance_MZ:max_difference" = Some (DoubleValue (opt_mz_delta o)).
Proof.
  intros Hr Ht Hf Hc. apply complete_flat in Hc as [Hne Hall].
  destruct (flat_run param o Hr prot_ids pep_ids doc w Ht Hf Hne Hall) as (maps & _ & Hrun).
  simpl in Hrun. exists (linker_params_of o), maps, [EvLoad IDXML (opt_in o)]. eexists.
  rewrite Hrun. simpl. split_and!; [reflexivity|done| |..].
  - simpl. by rewrite existsb_app, no_group_in_applies.
  - unfold linker_params_of. by simplify_map_eq.
  - unfold linker_params_of. by simplify_map_eq.
  - unfold linker_params_of. by simplify_map_eq.
  - unfold linker_params_of. by simplify_map_eq.
Qed.

(** C8, as amended.  A negative [rt_delta] or [mz_delta], a negative
    [considered_hits] or an [algorithm] that is not one of PEPMatrix, PEPIons,
    best, average and ranks is rejected when the options are read: [main_]
    throws, and nothing has been loaded, grouped, scored or stored.  (The
    score types of the input are not looked at before the scorer runs.) *)
Theorem invalid_options_rejected_before_work `{Collaborators} (param : Param)
    (w : World) :
  invalid_configuration param →
  ∃ e, main_ param w = (Thrown e, w).
Proof.
  intros Hinv. destruct (invalid_configuration_not_read param Hinv) as [e He].
  exists e. by apply main_options_rejected.
Qed.

(** C9.  On flat input that runs to the end, a group in which the scorer
    leaves no identification adds nothing to the output: the identifications
    stored are those of the groups before it followed by those of the groups
    after it.  The run returns EXECUTION_OK all the same. *)
Theorem empty_group_dropped `{Collaborators} (param : Param) (o : Options)
    (prot_ids : list ProteinIdentification) (pep_ids : list PeptideIdentification)
    (doc : string) (w : World) :
  read_options param = inr o →
  FileHandler_getType (fs w) (opt_in o) = IDXML →
  fs w !! opt_in o = Some (IdXMLData prot_ids pep_ids doc) →
  complete_input (IdXMLData prot_ids pep_ids doc) = true →
  ∃ maps before after,
    let c := flat_scorer param o (length prot_ids) in
    let grouping := cm_features (linker_group (linker_params_of o) maps) in
    (main_ param w).1 = Returned EXECUTION_OK
    ∧ trace (main_ param w).2 =
        trace w ++ before ++ EvGroup (linker_params_of o) maps :: after
    ∧ ∀ pre g post,
        grouping = pre ++ g :: post →
        consensus_apply c (cf_ids g) = [] →
        identifications <$> (fs (main_ param w).2 !! opt_out o)
        = Some (collected c pre ++ collected c post).
Proof.
  intros Hr Ht Hf Hc. apply complete_flat in Hc as [Hne Hall].
  destruct (flat_run param o Hr prot_ids pep_ids doc w Ht Hf Hne Hall) as (maps & _ & Hrun).
  exists maps, [EvLoad IDXML (opt_in o)]. eexists. intros c grouping.
  simpl in Hrun. rewrite Hrun. simpl. split_and!; [done|done|].
  intros pre g post Hg Hempty. rewrite lookup_insert_eq. simpl.
  fold c. fold grouping. rewrite Hg, collected_app, collected_cons.
  unfold consensus_of_group. by rewrite Hempty.
Qed.

(** C10.  When the type of the input file is none of idXML, featureXML and
    consensusXML, [main_] returns EXECUTION_OK and the world is as it was:
    nothing loaded, grouped, scored or stored. *)
Theorem other_type_does_nothing `{Collaborators} (param : Param) (o : Options)
    (w : World) :
  read_options param = inr o →
  FileHandler_getType (fs w) (opt_in o) ∉ [IDXML; FEATUREXML; CONSENSUSXML] →
  main_ param w = (Returned EXECUTION_OK, w).
Proof.
  intros Hr Ht. apply (other_run param o Hr); intros E; apply Ht; rewrite E; set_solver.
Qed.

(** The key under which the sections hand the number of runs to the scorer.
    The idXML section sets "number_of_runs"; the featureXML and the
    consensusXML section set "ranks:number_of_runs" and leave
    "number_of_runs" as it was. *)
Lemma flat_scorer_number_of_runs (param : Param) (o : Options) (runs : nat) :
  ∃ p, cons_parameters (flat_scorer param o runs) = Some p
       ∧ p !! "number_of_runs" = Some (IntValue (Z.of_nat runs)).
Proof. eexists. split; [done|]. by simplify_map_eq. Qed.

Lemma map_scorer_number_of_runs (param : Param) (o : Options) (runs : nat) :
  ∃ p, cons_parameters (map_scorer param o runs) = Some p
       ∧ p !! "ranks:number_of_runs" = Some (IntValue (Z.of_nat runs))
       ∧ p !! "number_of_runs" = algo_param (set_up param (opt_algorithm o)) !! "number_of_runs".
Proof. eexists. split; [done|]. unfold base_param. by simplify_map_eq. Qed.

(** C3, on a featureXML file with three identification runs, scored by
    ranks: the one call of [setParameters] comes before every call of
    [apply], and the parameters it passes hold the number of runs under
    "ranks:number_of_runs" and nothing under "number_of_runs". *)
Theorem pregrouped_number_of_runs_key :
  let r := @main_ ex_collaborators
             (ex_param "features.featureXML" "out.featureXML" "ranks") (ex_world 0) in
  ex_files !! "features.featureXML" = Some (FeatureXMLData ex_feature_map)
  ∧ length (fm_protein_identifications ex_feature_map) = 3
  ∧ r.1 = Returned EXECUTION_OK
  ∧ ∃ algo_param before after,
      trace r.2 = before ++ EvSetParameters Ranks algo_param :: after
      ∧ existsb is_apply_event before = false
      ∧ Forall (λ e, ∀ a p, e ≠ EvSetParameters a p) after
      ∧ algo_param !! "ranks:number_of_runs" = Some (IntValue 3)
      ∧ algo_param !! "number_of_runs" = None.
Proof.
  intros r. split_and!; [done|done|by vm_compute|].
  exists (<["ranks:number_of_runs" := IntValue 3]> (<["considered_hits" := IntValue 10]> ∅)),
         [EvLoad FEATUREXML "features.featureXML"].
  eexists. split_and!.
  - subst r.
    rewrite (feature_run (H := ex_collaborators) (ex_param "features.featureXML" "out.featureXML" "ranks")
               (ex_options "features.featureXML" "out.featureXML" "ranks")
               eq_refl ex_feature_map (ex_world 0) eq_refl eq_refl).
    reflexivity.
  - done.
  - repeat constructor; intros ? ?; discriminate.
  - by simplify_map_eq.
  - by simplify_map_eq.
Qed.

(** ** Inputs on which the claims C6 and C8 fail as they are stated *)

(** C6.  Two invocations with the same configuration on the same files, one
    second apart, store different outputs. *)
Lemma timestamp_differs_between_runs :
  let param := ex_param "flat.idXML" "out.idXML" "best" in
  fs (ex_world 1) = fs (ex_world 2)
  ∧ (@main_ ex_collaborators param (ex_world 1)).1 = Returned EXECUTION_OK
  ∧ (@main_ ex_collaborators param (ex_world 2)).1 = Returned EXECUTION_OK
  ∧ fs (@main_ ex_collaborators param (ex_world 1)).2 !! "out.idXML"
    ≠ fs (@main_ ex_collaborators param (ex_world 2)).2 !! "out.idXML".
Proof.
  intros param. split_and!; [done|by vm_compute|by vm_compute|].
  vm_compute. intros E. discriminate E.
Qed.

(** C8.  PEPMatrix is selected, the scores of the input are Mascot scores,
    not posterior error probabilities, and the run is not rejected before
    the work begins: the linker is called, and so is the scorer. *)
Lemma score_type_not_checked_before_grouping :
  let param := ex_param "flat.idXML" "out.idXML" "PEPMatrix" in
  let r := @main_ ex_collaborators param (ex_world 0) in
  ex_files !! "flat.idXML" = Some (IdXMLData ex_prot_ids ex_pep_ids "doc")
  ∧ Forall (λ p, pep_score_type p = "Mascot") ex_pep_ids
  ∧ algorithm_of param (ex_options "flat.idXML" "out.idXML" "PEPMatrix") = PEPMatrix
  ∧ existsb is_group_event (trace r.2) = true
  ∧ existsb is_apply_event (trace r.2) = true
  ∧ r.1 = Returned EXECUTION_OK
  ∧ ¬ ∃ e, r = (Thrown e, ex_world 0).
Proof.
  intros param r.
  assert (r.1 = Returned EXECUTION_OK) as Hrun by (by vm_compute).
  split_and!; [done|by repeat constructor|done|by vm_compute|by vm_compute|done|].
  intros [e He]. by rewrite He in Hrun.
Qed.

(** ** The theorems at concrete inputs *)

Lemma output_metadata_is_one_fresh_run_witness :
  ∃ d',
    fs (@main_ ex_collaborators (ex_param "features.featureXML" "out.featureXML" "ranks")
               (ex_world 1000)).2 !! "out.featureXML" = Some d'
    ∧ run_metadata (FeatureXMLData ex_feature_map) = ex_prot_ids
    ∧ run_metadata d' =
        [mkProteinIdentification "" "OpenMS/ConsensusID" "2.0.0" (DateTimeAt 1000) []].
Proof.
  destruct (output_metadata_is_one_fresh_run (H := ex_collaborators)
              (ex_param "features.featureXML" "out.featureXML" "ranks")
              (ex_options "features.featureXML" "out.featureXML" "ranks")
              (FeatureXMLData ex_feature_map) (ex_world 1000)
              eq_refl eq_refl eq_refl eq_refl)
    as (d' & before & Hrun & _ & _ & Hmeta).
  exists d'. rewrite Hrun. split; [apply lookup_insert_eq | split; [reflexivity | exact Hmeta]].
Defined.

Lemma linker_invocation_parameters_witness :
  ∃ linker_params maps before after,
    trace (@main_ ex_collaborators (ex_param "flat.idXML" "out.idXML" "best")
                  (ex_world 0)).2 = before ++ EvGroup linker_params maps :: after
    ∧ ex_linker_defaults !! "ignore_charge" = Some (StringValue "false")
    ∧ ex_linker_defaults !! "distance_MZ:unit" = Some (StringValue "ppm")
    ∧ linker_params !! "ignore_charge" = Some (StringValue "true")
    ∧ linker_params !! "distance_MZ:unit" = Some (StringValue "Da")
    ∧ linker_params !! "distance_RT:max_difference" = Some (DoubleValue 0.1)
    ∧ linker_params !! "distance_MZ:max_difference" = Some (DoubleValue 0.1).
Proof.
  destruct (linker_invocation_parameters (H := ex_collaborators)
              (ex_param "flat.idXML" "out.idXML" "best")
              (ex_options "flat.idXML" "out.idXML" "best")
              ex_prot_ids ex_pep_ids "doc" (ex_world 0) eq_refl eq_refl eq_refl eq_refl)
    as (lp & maps & before & after & Ht & _ & _ & H1 & H2 & H3 & H4).
  exists lp, maps, before, after.
  split; [exact Ht|]. split; [reflexivity|]. split; [reflexivity|].
  split; [exact H1|]. split; [exact H2|]. split; [exact H3 | exact H4].
Defined.

Lemma invalid_options_rejected_before_work_witness :
  ∃ e,
    @main_ ex_collaborators
           (<["rt_delta" := DoubleValue (-1)]> (ex_param "flat.idXML" "out.idXML" "best"))
           (ex_world 0)
    = (Thrown e, ex_world 0).
Proof.
  apply (invalid_options_rejected_before_work (H := ex_collaborators)).
  left. exists (-1)%float. split; reflexivity.
Defined.

Lemma empty_group_dropped_witness :
  ∃ maps,
    (@main_ ex_collaborators (ex_param "flat.idXML" "out.idXML" "best") (ex_world 0)).1
    = Returned EXECUTION_OK
    ∧ ∀ pre g post,
        cm_features (ex_group (linker_params_of (H := ex_collaborators)
                                 (ex_options "flat.idXML" "out.idXML" "best")) maps)
        = pre ++ g :: post →
        ex_apply (flat_scorer (ex_param "flat.idXML" "out.idXML" "best")
                              (ex_options "flat.idXML" "out.idXML" "best") 3) (cf_ids g) = [] →
        identifications <$>
          (fs (@main_ ex_collaborators (ex_param "flat.idXML" "out.idXML" "best")
                      (ex_world 0)).2 !! "out.idXML")
        = Some (collected (H := ex_collaborators)
                  (flat_scorer (ex_param "flat.idXML" "out.idXML" "best")
                               (ex_options "flat.idXML" "out.idXML" "best") 3) pre
                ++ collected (H := ex_collaborators)
                     (flat_scorer (ex_param "flat.idXML" "out.idXML" "best")
                                  (ex_options "flat.idXML" "out.idXML" "best") 3) post).
Proof.
  destruct (empty_group_dropped (H := ex_collaborators)
              (ex_param "flat.idXML" "out.idXML" "best")
              (ex_options "flat.idXML" "out.idXML" "best")
              ex_prot_ids ex_pep_ids "doc" (ex_world 0) eq_refl eq_refl eq_refl eq_refl)
    as (maps & before & after & Hok & _ & Hdrop).
  exists maps. split; [exact Hok | exact Hdrop].
Defined.

Lemma output_determined_up_to_timestamp_witness :
  fs (ex_world 1) ≠ fs ex_world_retry
  ∧ ∃ evs,
      (@main_ ex_collaborators (ex_param "flat.idXML" "out.idXML" "best") (ex_world 1)).1
      = (@main_ ex_collaborators (ex_param "flat.idXML" "out.idXML" "best") ex_world_retry).1
      ∧ trace (@main_ ex_collaborators (ex_param "flat.idXML" "out.idXML" "best")
                      (ex_world 1)).2 = evs
      ∧ trace (@main_ ex_collaborators (ex_param "flat.idXML" "out.idXML" "best")
                      ex_world_retry).2 = evs.
Proof.
  split.
  { intros E. apply (f_equal (λ m, m !! "out.idXML")) in E. vm_compute in E. discriminate E. }
  destruct (output_determined_up_to_timestamp (H := ex_collaborators)
              (ex_param "flat.idXML" "out.idXML" "best") (ex_world 1) ex_world_retry)
    as (evs & Hflow & Ht1 & Ht2 & _).
  { intros o Ho.
    change (read_options (ex_param "flat.idXML" "out.idXML" "best"))
      with (@inr Exception Options (ex_options "flat.idXML" "out.idXML" "best")) in Ho.
    injection Ho as <-. split; vm_compute; reflexivity. }
  exists evs. split; [exact Hflow | split; [exact Ht1 | exact Ht2]].
Defined.

Lemma other_type_does_nothing_witness :
  @main_ ex_collaborators (ex_param "spectra.mzML" "out.idXML" "best") (ex_world 0)
  = (Returned EXECUTION_OK, ex_world 0).
Proof.
  apply (other_type_does_nothing (H := ex_collaborators)
           (ex_param "spectra.mzML" "out.idXML" "best")
           (ex_options "spectra.mzML" "out.idXML" "best") (ex_world 0) eq_refl).
  intros Hin. repeat (apply elem_of_cons in Hin as [Hin|Hin]; [discriminate Hin|]).
  by apply elem_of_nil in Hin.
Defined.

(** * Further properties of the tool *)

(** ** Every way in which [main_] ends *)

Section Outcomes.
Context `{Collaborators}.
Variables (param : Param) (o : Options).
Hypothesis Hoptions : read_options param = inr o.

Lemma IdXMLFile_load_fails name w :
  (∀ d, fs w !! name = Some d → data_type d ≠ IDXML) →
  ∃ e, IdXMLFile_load name w = (Thrown e, add_events [EvLoad IDXML name] w).
Proof.
  intros Hd. unfold IdXMLFile_load. rewrite bind_unfold. simpl.
  rewrite bind_unfold. unfold read_file. simpl.
  destruct (fs w !! name) as [d|] eqn:E; [|by eexists].
  destruct d; try by eexists. by destruct (Hd _ eq_refl).
Qed.

Lemma FeatureXMLFile_load_fails name w :
  (∀ d, fs w !! name = Some d → data_type d ≠ FEATUREXML) →
  ∃ e, FeatureXMLFile_load name w = (Thrown e, add_events [EvLoad FEATUREXML name] w).
Proof.
  intros Hd. unfold FeatureXMLFile_load. rewrite bind_unfold. simpl.
  rewrite bind_unfold. unfold read_file. simpl.
  destruct (fs w !! name) as [d|] eqn:E; [|by eexists].
  destruct d; try by eexists. by destruct (Hd _ eq_refl).
Qed.

Lemma ConsensusXMLFile_load_fails name w :
  (∀ d, fs w !! name = Some d → data_type d ≠ CONSENSUSXML) →
  ∃ e, ConsensusXMLFile_load name w = (Thrown e, add_events [EvLoad CONSENSUSXML name] w).
Proof.
  intros Hd. unfold ConsensusXMLFile_load. rewrite bind_unfold. simpl.
  rewrite bind_unfold. unfold read_file. simpl.
  destruct (fs w !! name) as [d|] eqn:E; [|by eexists].
  destruct d; try by eexists. by destruct (Hd _ eq_refl).
Qed.

(** A failing reader ends the run. *)
Lemma load_failure_run w :
  FileHandler_getType (fs w) (opt_in o) ∈ [IDXML; FEATUREXML; CONSENSUSXML] →
  (∀ d, fs w !! opt_in o = Some d →
        data_type d ≠ FileHandler_getType (fs w) (opt_in o)) →
  ∃ e, main_ param w =
       (Thrown e, add_events [EvLoad (FileHandler_getType (fs w) (opt_in o)) (opt_in o)] w).
Proof.
  intros Ht Hd. rewrite (main_options_read _ _ _ Hoptions).
  destruct (FileHandler_getType (fs w) (opt_in o)) eqn:E;
    try (exfalso;
         repeat (apply elem_of_cons in Ht as [Ht|Ht]; [discriminate Ht|]);
         by apply elem_of_nil in Ht);
    unfold sections; simpl.
  - destruct (FeatureXMLFile_load_fails (opt_in o) w Hd) as [e He]. exists e.
    unfold featureXML_section. repeat (rewrite ?bind_unfold, ?He; simpl). done.
  - destruct (IdXMLFile_load_fails (opt_in o) w Hd) as [e He]. exists e.
    unfold idXML_section. repeat (rewrite ?bind_unfold, ?He; simpl). done.
  - destruct (ConsensusXMLFile_load_fails (opt_in o) w Hd) as [e He]. exists e.
    unfold consensusXML_section. repeat (rewrite ?bind_unfold, ?He; simpl). done.
Qed.

(** With no map at all, the first identification decides. *)
Lemma fill_maps_no_maps pep rest id_mapping w :
  fill_maps (pep :: rest) id_mapping [] w =
  if has_position pep then (Undefined, w)
  else (Returned INCOMPATIBLE_INPUT_DATA,
        add_events [EvFatalError (missing_position_message (pep_identifier pep))] w).
Proof.
  simpl. rewrite position_test. destruct (has_position pep); simpl; [|done].
  by destruct (map_subscript _ _).
Qed.

(** The idXML section from the filled maps on. *)
Lemma flat_run_filled prot_ids pep_ids doc id_mapping maps w :
  FileHandler_getType (fs w) (opt_in o) = IDXML →
  fs w !! opt_in o = Some (IdXMLData prot_ids pep_ids doc) →
  (∀ w', fill_maps pep_ids (index_runs 0 prot_ids ∅)
                   (replicate (length prot_ids) FeatureMap_default) w'
         = (Normal (id_mapping, maps), w')) →
  let c := flat_scorer param o (length prot_ids) in
  let grouping :=
    cm_features (linker_group (linker_params_of o) (updateRanges <$> maps)) in
  main_ param w =
  (Returned EXECUTION_OK,
   mkWorld (<[opt_out o :=
                IdXMLData [consensus_run (clock w)] (collected c grouping) ""]> (fs w))
           (clock w)
           (trace w ++
            [EvLoad IDXML (opt_in o)] ++
            [EvGroup (linker_params_of o) (updateRanges <$> maps)] ++
            [EvSetParameters (cons_algorithm c)
               (<["number_of_runs" := IntValue (Z.of_nat (length prot_ids))]>
                  (base_param param o))] ++
            (EvApply c <$> (cf_ids <$> grouping)) ++
            [EvNow; EvStore IDXML (opt_out o)])).
Proof.
  intros Ht Hf Hfill c grouping. rewrite (main_options_read _ _ _ Hoptions), Ht.
  unfold sections, idXML_section, group, setParameters. simpl.
  repeat (rewrite ?bind_unfold, ?(IdXMLFile_load_spec _ _ _ _ _ Hf), ?Hfill,
            ?score_groups_spec, ?setProteinIdentifications_spec; simpl).
  f_equal. unfold write_file, add_events, log_event. simpl. f_equal.
  rewrite <- list_fmap_compose. by rewrite <- !app_assoc.
Qed.

End Outcomes.

Lemma applies_of_features (c : Consensus) (l : list Feature) :
  (λ f, EvApply c (feat_ids f)) <$> l = EvApply c <$> (feat_ids <$> l).
Proof. apply (list_fmap_compose feat_ids (EvApply c)). Qed.

Lemma applies_of_consensus_features (c : Consensus) (l : list ConsensusFeature) :
  (λ f, EvApply c (cf_ids f)) <$> l = EvApply c <$> (cf_ids <$> l).
Proof. apply (list_fmap_compose cf_ids (EvApply c)). Qed.

Lemma not_one_of_three (t : FileTypes) :
  t ∉ [IDXML; FEATUREXML; CONSENSUSXML] →
  t ≠ IDXML ∧ t ≠ FEATUREXML ∧ t ≠ CONSENSUSXML.
Proof.
  intros Ht. split_and!; intros ->; apply Ht.
  - apply list_elem_of_here.
  - apply list_elem_of_further, list_elem_of_here.
  - do 2 apply list_elem_of_further. apply list_elem_of_here.
Qed.

(** [main_] ends in one of the six ways of [Outcome]. *)
Lemma main_outcome `{Collaborators} (param : Param) (w : World) :
  Outcome param w (main_ param w).
Proof.
  destruct (read_options param) as [e|o] eqn:Hr.
  { rewrite (main_options_rejected _ _ _ Hr). by constructor. }
  destruct (decide (FileHandler_getType (fs w) (opt_in o)
                    ∈ [IDXML; FEATUREXML; CONSENSUSXML])) as [Ht|Ht]; cycle 1.
  { destruct (not_one_of_three _ Ht) as (H1 & H2 & H3).
    rewrite (other_run param o Hr w H1 H2 H3). by apply (nothing_to_do param w o). }
  assert (∀ e, (∀ d, fs w !! opt_in o = Some d →
                     data_type d ≠ FileHandler_getType (fs w) (opt_in o)) →
               main_ param w =
               (Thrown e, add_events [EvLoad (FileHandler_getType (fs w) (opt_in o))
                                             (opt_in o)] w) →
               Outcome param w (main_ param w)) as Hfail.
  { intros e Hd ->. by apply (load_failed param w o). }
  destruct (fs w !! opt_in o) as [d|] eqn:Hf; cycle 1.
  { destruct (load_failure_run param o Hr w Ht) as [e He]; [by rewrite Hf|].
    apply (Hfail e); [done|exact He]. }
  destruct (decide (data_type d = FileHandler_getType (fs w) (opt_in o))) as [Hd|Hd]; cycle 1.
  { destruct (load_failure_run param o Hr w Ht) as [e He].
    { rewrite Hf. by intros ? [= <-]. }
    apply (Hfail e); [|exact He]. by intros ? [= <-]. }
  clear Hfail. symmetry in Hd.
  destruct d as [prot_ids pep_ids doc|map|map|bytes]; simpl in Hd.
  - destruct prot_ids as [|p prot_ids]; [destruct pep_ids as [|pep rest]|].
    + pose proof (flat_run_filled param o Hr [] [] doc ∅ [] w Hd Hf) as Hrun.
      simpl in Hrun. rewrite Hrun by done.
      eapply (completed param w o (IdXMLData [] [] doc) (IdXMLData _ _ _)
                        [EvGroup _ _] (flat_scorer param o 0) _ _); eauto.
      unfold base_param. by simplify_map_eq.
    + rewrite (main_options_read _ _ _ Hr), Hd. unfold sections.
      rewrite decide_True by done. rewrite bind_unfold. unfold idXML_section.
      rewrite bind_unfold, (IdXMLFile_load_spec _ _ _ _ _ Hf), bind_unfold.
      change (index_runs 0 [] ∅) with (∅ : gmap string nat).
      change (replicate (length (@nil ProteinIdentification)) FeatureMap_default)
        with (@nil FeatureMap).
      rewrite fill_maps_no_maps. destruct (has_position pep) eqn:Hp.
      * by apply (vector_out_of_range param w o [] (pep :: rest) doc).
      * rewrite add_events_app.
        apply (position_missing param w o [] (pep :: rest) doc); try done.
        simpl. by rewrite Hp.
    + destruct (maps_in_range (p :: prot_ids)) as [Hn Hb]; [done|].
      destruct (forallb has_position pep_ids) eqn:Hall.
      * destruct (fill_maps_ok pep_ids _ _ Hn Hb Hall) as (idm & maps & _ & Hfill).
        pose proof (flat_run_filled param o Hr (p :: prot_ids) pep_ids doc idm maps w
                                    Hd Hf Hfill) as Hrun.
        simpl in Hrun. rewrite Hrun.
        eapply (completed param w o (IdXMLData (p :: prot_ids) pep_ids doc)
                          (IdXMLData _ _ _) [EvGroup _ _]
                          (flat_scorer param o (S (length prot_ids))) _ _); eauto.
        { simpl. by rewrite Hall. }
        unfold base_param. by simplify_map_eq.
      * destruct (flat_abort param o Hr (p :: prot_ids) pep_ids doc w Hd Hf) as [run_id ->];
          try done.
        apply (position_missing param w o (p :: prot_ids) pep_ids doc); try done.
        simpl. by rewrite Hall.
  - pose proof (feature_run param o Hr map w Hd Hf) as Hrun. simpl in Hrun.
    rewrite Hrun, applies_of_features.
    eapply (completed param w o (FeatureXMLData map) (FeatureXMLData _) []
                      (map_scorer param o (length (fm_protein_identifications map)))
                      _ _); eauto.
    unfold base_param. by simplify_map_eq.
  - pose proof (consensus_map_run param o Hr map w Hd Hf) as Hrun. simpl in Hrun.
    rewrite Hrun, applies_of_consensus_features.
    eapply (completed param w o (ConsensusXMLData map) (ConsensusXMLData _) []
                      (map_scorer param o (length (cm_protein_identifications map)))
                      _ _); eauto.
    unfold base_param. by simplify_map_eq.
  - exfalso. rewrite Hd in Ht.
    repeat (apply elem_of_cons in Ht as [Ht|Ht]; [discriminate Ht|]).
    by apply elem_of_nil in Ht.
Qed.

Lemma aborts_not_out_of_range prot_ids pep_ids :
  aborts prot_ids pep_ids = true → out_of_range prot_ids pep_ids = false.
Proof.
  destruct prot_ids, pep_ids; simpl; try done. by destruct (has_position _).
Qed.

Lemma runs_to_end_flat prot_ids pep_ids doc :
  runs_to_end (IdXMLData prot_ids pep_ids doc) = true →
  aborts prot_ids pep_ids = false ∧ out_of_range prot_ids pep_ids = false.
Proof.
  simpl. intros [H1 H2]%andb_true_iff.
  by destruct (aborts _ _), (out_of_range _ _).
Qed.

Lemma runs_to_end_type d : runs_to_end d = true → data_type d ≠ UNKNOWN.
Proof. by destruct d. Qed.

(** The input decides how [main_] ends. *)
Lemma outcome_flow `{Collaborators} (param : Param) (o : Options) (w : World) r :
  read_options param = inr o →
  Outcome param w r →
  match fs w !! opt_in o with
  | Some d =>
      if decide (data_type d = FileHandler_getType (fs w) (opt_in o)) then
        match d with
        | IdXMLData prot_ids pep_ids _ =>
            if out_of_range prot_ids pep_ids then r.1 = Undefined
            else if aborts prot_ids pep_ids then r.1 = Returned INCOMPATIBLE_INPUT_DATA
            else r.1 = Returned EXECUTION_OK
        | OtherData _ => r.1 = Returned EXECUTION_OK
        | _ => r.1 = Returned EXECUTION_OK
        end
      else if decide (FileHandler_getType (fs w) (opt_in o)
                      ∈ [IDXML; FEATUREXML; CONSENSUSXML])
           then ∃ e, r.1 = Thrown e else r.1 = Returned EXECUTION_OK
  | None =>
      if decide (FileHandler_getType (fs w) (opt_in o)
                 ∈ [IDXML; FEATUREXML; CONSENSUSXML])
      then ∃ e, r.1 = Thrown e else r.1 = Returned EXECUTION_OK
  end.
Proof.
  intros Hr Ho.
  destruct Ho as [e He|o' Hr' Ht|o' e Hr' Ht Hd|o' prot_ids pep_ids doc run_id Hr' Ht Hf Ha
                 |o' prot_ids pep_ids doc Hr' Ht Hf Hb
                 |o' d d' linking c p scored Hr' Ht Hf Hrun Hd' Hc Hp Hl];
    [congruence | assert (o' = o) as -> by congruence ..]; simpl.
  - destruct (fs w !! opt_in o) as [d|]; [|by rewrite decide_False].
    destruct (decide (data_type d = _)) as [E|E]; [|by rewrite decide_False].
    destruct d; simpl in E; try done. exfalso. apply Ht. rewrite <- E.
    apply list_elem_of_here.
  - destruct (fs w !! opt_in o) as [d|] eqn:Hf.
    + rewrite decide_False by (by apply Hd). rewrite decide_True by done. by exists e.
    + rewrite decide_True by done. by exists e.
  - rewrite Hf. simpl. rewrite decide_True by done.
    by rewrite (aborts_not_out_of_range _ _ Ha), Ha.
  - rewrite Hf. simpl. rewrite decide_True by done. by rewrite Hb.
  - rewrite Hf. rewrite decide_True by done.
    destruct d as [prot_ids pep_ids doc| | |]; try done.
    destruct (runs_to_end_flat _ _ _ Hrun) as [-> ->]. done.
Qed.

(** X1.  Undefined behaviour.  [main_] indexes the vector of maps out of range
    exactly on an idXML input without any identification run whose first
    identification has RT and m/z. *)
Theorem undefined_iff_no_run `{Collaborators} (param : Param) (w : World) :
  (main_ param w).1 = Undefined ↔
  ∃ o prot_ids pep_ids doc,
    read_options param = inr o
    ∧ FileHandler_getType (fs w) (opt_in o) = IDXML
    ∧ fs w !! opt_in o = Some (IdXMLData prot_ids pep_ids doc)
    ∧ out_of_range prot_ids pep_ids = true.
Proof.
  split.
  - intros Hu. pose proof (main_outcome param w) as Ho.
    destruct (main_ param w) as [r w']. simpl in Hu. subst r.
    inversion Ho; subst. by exists o, prot_ids, pep_ids, doc.
  - intros (o & prot_ids & pep_ids & doc & Hr & Ht & Hf & Hb).
    pose proof (outcome_flow param o w _ Hr (main_outcome param w)) as Hflow.
    rewrite Hf, Ht in Hflow. simpl in Hflow. by rewrite Hb in Hflow.
Qed.

(** X2.  The missing position.  [main_] returns INCOMPATIBLE_INPUT_DATA exactly
    on an idXML input on which the loop over the identifications reaches one
    without RT or m/z: with a run, when any identification lacks one; without
    a run, when the first identification does. *)
Theorem incompatible_iff_position_missing `{Collaborators} (param : Param) (w : World) :
  (main_ param w).1 = Returned INCOMPATIBLE_INPUT_DATA ↔
  ∃ o prot_ids pep_ids doc,
    read_options param = inr o
    ∧ FileHandler_getType (fs w) (opt_in o) = IDXML
    ∧ fs w !! opt_in o = Some (IdXMLData prot_ids pep_ids doc)
    ∧ aborts prot_ids pep_ids = true.
Proof.
  split.
  - intros Hu. pose proof (main_outcome param w) as Ho.
    destruct (main_ param w) as [r w']. simpl in Hu. subst r.
    inversion Ho; subst. by exists o, prot_ids, pep_ids, doc.
  - intros (o & prot_ids & pep_ids & doc & Hr & Ht & Hf & Ha).
    pose proof (outcome_flow param o w _ Hr (main_outcome param w)) as Hflow.
    rewrite Hf, Ht in Hflow. simpl in Hflow.
    by rewrite (aborts_not_out_of_range _ _ Ha), Ha in Hflow.
Qed.

(** X3.  Success.  [main_] returns EXECUTION_OK exactly when the options are
    read and either the type of the input is none of the three, or the input
    file holds records of its type on which the section runs to the end. *)
Theorem success_iff `{Collaborators} (param : Param) (w : World) :
  (main_ param w).1 = Returned EXECUTION_OK ↔
  ∃ o,
    read_options param = inr o
    ∧ (FileHandler_getType (fs w) (opt_in o) ∉ [IDXML; FEATUREXML; CONSENSUSXML]
       ∨ ∃ d, fs w !! opt_in o = Some d
              ∧ FileHandler_getType (fs w) (opt_in o) = data_type d
              ∧ runs_to_end d = true).
Proof.
  split.
  - intros Hu. pose proof (main_outcome param w) as Ho.
    destruct (main_ param w) as [r w']. simpl in Hu. subst r.
    inversion Ho; subst.
    + exists o. by split; [|left].
    + exists o. split; [done|]. right. by exists d.
  - intros (o & Hr & [Ht | (d & Hf & Ht & Hrun)]).
    + destruct (not_one_of_three _ Ht) as (H1 & H2 & H3).
      by rewrite (other_run param o Hr w H1 H2 H3).
    + pose proof (outcome_flow param o w _ Hr (main_outcome param w)) as Hflow.
      rewrite Hf, decide_True in Hflow by done.
      destruct d as [prot_ids pep_ids doc| | |]; try done.
      by destruct (runs_to_end_flat _ _ _ Hrun) as [Ha Hb]; rewrite Ha, Hb in Hflow.
Qed.

(** X4.  What is written.  A run changes no file but the output file, and
    changes that one only when it returns EXECUTION_OK: a run that throws or
    returns another exit code leaves every file as it was. *)
Theorem only_output_written_on_success `{Collaborators} (param : Param) (w : World)
    (name : string) :
  fs (main_ param w).2 !! name ≠ fs w !! name →
  ∃ o, read_options param = inr o
       ∧ name = opt_out o
       ∧ (main_ param w).1 = Returned EXECUTION_OK.
Proof.
  intros Hchanged. pose proof (main_outcome param w) as Ho.
  destruct (main_ param w) as [r w']. simpl in *.
  inversion Ho; subst; simpl in Hchanged; try done.
  exists o. split_and!; [done| |done].
  destruct (decide (name = opt_out o)) as [|Hne]; [done|].
  by rewrite lookup_insert_ne in Hchanged.
Qed.

(** The clock and the trace.  A run never sets the clock, and it only
    adds to the trace of calls. *)
Lemma run_extends_trace `{Collaborators} (param : Param) (w : World) :
  clock (main_ param w).2 = clock w
  ∧ ∃ evs, trace (main_ param w).2 = trace w ++ evs.
Proof.
  pose proof (main_outcome param w) as Ho.
  destruct (main_ param w) as [r w']. simpl.
  inversion Ho; subst; simpl; split; try done; try by eexists.
  all: exists []; by rewrite app_nil_r.
Qed.

(** X5.  The scorer is configured before it is applied.  Whatever the input,
    every call of [apply] in a run is on a scorer whose parameters have been
    set by a call of [setParameters] that precedes all calls of [apply] and
    is the only call of [setParameters] in the run; these parameters hold the
    option [considered_hits]. *)
Theorem scorer_configured_before_applied `{Collaborators} (param : Param) (w : World) :
  ∃ evs,
    trace (main_ param w).2 = trace w ++ evs
    ∧ ∀ c ids,
        EvApply c ids ∈ evs →
        ∃ o p before after,
          read_options param = inr o
          ∧ cons_parameters c = Some p
          ∧ p !! "considered_hits" = Some (IntValue (opt_considered_hits o))
          ∧ evs = before ++ EvSetParameters (cons_algorithm c) p :: after
          ∧ existsb is_apply_event before = false
          ∧ Forall (λ e, ∀ a q, e ≠ EvSetParameters a q) before
          ∧ Forall (λ e, ∀ a q, e ≠ EvSetParameters a q) after
          ∧ EvApply c ids ∈ after.
Proof.
  pose proof (main_outcome param w) as Ho.
  destruct (main_ param w) as [r w']. simpl.
  inversion Ho as [e He|o Hr Ht|o e Hr Ht Hd|o prot_ids pep_ids doc run_id Hr Ht Hf Ha
                  |o prot_ids pep_ids doc Hr Ht Hf Hb
                  |o d d' linking c p scored Hr Ht Hf Hrun Hd' Hc Hp Hl]; subst; simpl.
  - exists []. split; [by rewrite app_nil_r|]. intros c ids Hin. by apply elem_of_nil in Hin.
  - exists []. split; [by rewrite app_nil_r|]. intros c ids Hin. by apply elem_of_nil in Hin.
  - eexists. split; [done|]. intros c ids Hin.
    apply elem_of_cons in Hin as [Hin|Hin]; [done|]. by apply elem_of_nil in Hin.
  - eexists. split; [done|]. intros c ids Hin.
    repeat (apply elem_of_cons in Hin as [Hin|Hin]; [done|]). by apply elem_of_nil in Hin.
  - eexists. split; [done|]. intros c ids Hin.
    apply elem_of_cons in Hin as [Hin|Hin]; [done|]. by apply elem_of_nil in Hin.
  - eexists. split; [done|]. intros c' ids Hin.
    assert (EvApply c' ids ∈ EvApply c <$> scored) as Hscored.
    { apply elem_of_cons in Hin as [Hin|Hin]; [done|].
      apply elem_of_app in Hin as [Hin|Hin].
      { destruct Hl as [->|(lp & maps & ->)]; [by apply elem_of_nil in Hin|].
        apply elem_of_cons in Hin as [Hin|Hin]; [done|]. by apply elem_of_nil in Hin. }
      apply elem_of_cons in Hin as [Hin|Hin]; [done|].
      apply elem_of_app in Hin as [Hin|Hin]; [done|].
      repeat (apply elem_of_cons in Hin as [Hin|Hin]; [done|]). by apply elem_of_nil in Hin. }
    assert (c' = c) as ->.
    { apply list_elem_of_fmap in Hscored as (x & [= -> ->] & _). done. }
    exists o, p, (EvLoad (data_type d) (opt_in o) :: linking),
           ((EvApply c <$> scored) ++ [EvNow; EvStore (data_type d) (opt_out o)]).
    split_and!; try done.
    + simpl. by destruct Hl as [->|(lp & maps & ->)].
    + destruct Hl as [->|(lp & maps & ->)]; by repeat constructor.
    + apply Forall_app. split; [|by repeat constructor].
      apply Forall_fmap, Forall_forall. by intros.
    + apply elem_of_app. by left.
Qed.

(** ** The idXML section on every input it runs through *)

Lemma flat_run_general `{Collaborators} (param : Param) (o : Options)
    prot_ids pep_ids doc w :
  read_options param = inr o →
  FileHandler_getType (fs w) (opt_in o) = IDXML →
  fs w !! opt_in o = Some (IdXMLData prot_ids pep_ids doc) →
  runs_to_end (IdXMLData prot_ids pep_ids doc) = true →
  ∃ maps,
    let c := flat_scorer param o (length prot_ids) in
    let grouping := cm_features (linker_group (linker_params_of o) maps) in
    main_ param w =
    (Returned EXECUTION_OK,
     mkWorld (<[opt_out o :=
                  IdXMLData [consensus_run (clock w)] (collected c grouping) ""]> (fs w))
             (clock w)
             (trace w ++
              [EvLoad IDXML (opt_in o)] ++ [EvGroup (linker_params_of o) maps] ++
              [EvSetParameters (cons_algorithm c)
                 (<["number_of_runs" := IntValue (Z.of_nat (length prot_ids))]>
                    (base_param param o))] ++
              (EvApply c <$> (cf_ids <$> grouping)) ++
              [EvNow; EvStore IDXML (opt_out o)])).
Proof.
  intros Hr Ht Hf Hrun. destruct (runs_to_end_flat _ _ _ Hrun) as [Ha Hb].
  destruct prot_ids as [|p prot_ids].
  - destruct pep_ids as [|pep rest].
    + exists (updateRanges <$> []).
      by apply (flat_run_filled param o Hr [] [] doc ∅ [] w Ht Hf).
    + simpl in Ha, Hb. by destruct (has_position pep).
  - destruct (maps_in_range (p :: prot_ids)) as [Hn Hbound]; [done|].
    simpl in Ha. apply negb_false_iff in Ha.
    destruct (fill_maps_ok pep_ids _ _ Hn Hbound Ha) as (idm & maps & _ & Hfill).
    exists (updateRanges <$> maps).
    by apply (flat_run_filled param o Hr (p :: prot_ids) pep_ids doc idm maps w Ht Hf).
Qed.

(** ** The claims on the missing position and on the output of the idXML section *)

Lemma position_missing_reached (prot_ids : list ProteinIdentification)
    (pep_ids : list PeptideIdentification) :
  (prot_ids ≠ [] ∧ ∃ p, p ∈ pep_ids ∧ has_position p = false)
  ∨ (∃ p rest, pep_ids = p :: rest ∧ has_position p = false) →
  aborts prot_ids pep_ids = true.
Proof.
  intros [[Hne (p & Hp & Hmiss)] | (p & rest & -> & Hmiss)].
  - destruct prot_ids as [|r prot_ids]; [done|]. simpl.
    by rewrite (forallb_false_of_elem _ _ p Hp Hmiss).
  - destruct prot_ids as [|r prot_ids]; simpl; by rewrite Hmiss.
Qed.

(** The run on an idXML input on which the loop reaches a missing position. *)
Lemma flat_abort_general `{Collaborators} (param : Param) (o : Options)
    prot_ids pep_ids doc w :
  read_options param = inr o →
  FileHandler_getType (fs w) (opt_in o) = IDXML →
  fs w !! opt_in o = Some (IdXMLData prot_ids pep_ids doc) →
  aborts prot_ids pep_ids = true →
  ∃ run_id,
    main_ param w =
    (Returned INCOMPATIBLE_INPUT_DATA,
     add_events [EvLoad IDXML (opt_in o);
                 EvFatalError (missing_position_message run_id)] w).
Proof.
  intros Hr Ht Hf Ha.
  pose proof (main_outcome param w) as Ho.
  pose proof (outcome_flow param o w _ Hr Ho) as Hflow.
  rewrite Hf, Ht in Hflow. simpl in Hflow.
  rewrite (aborts_not_out_of_range _ _ Ha), Ha in Hflow.
  destruct (main_ param w) as [r w']. simpl in Hflow. subst r.
  inversion Ho as [| | |o' ? ? ? run_id Hr'| |]; subst.
  assert (o' = o) as -> by congruence. by exists run_id.
Qed.


(** C2, as amended.  The check of the positions belongs to the idXML
    section: there an identification with exactly one of RT and m/z makes
    [main_] return INCOMPATIBLE_INPUT_DATA when the input has at least one
    identification run, or when it is the first identification; for
    featureXML and consensusXML input the positions of the identifications
    are not looked at, and [main_] returns EXECUTION_OK whatever they are. *)
Theorem position_check_by_input_shape `{Collaborators} (param : Param) (o : Options)
    (d : FileData) (w : World) :
  read_options param = inr o →
  fs w !! opt_in o = Some d →
  FileHandler_getType (fs w) (opt_in o) = data_type d →
  match d with
  | IdXMLData prot_ids pep_ids _ =>
      (prot_ids ≠ [] ∧ ∃ p, p ∈ pep_ids ∧ hasRT p ≠ hasMZ p)
      ∨ (∃ p rest, pep_ids = p :: rest ∧ hasRT p ≠ hasMZ p) →
      (main_ param w).1 = Returned INCOMPATIBLE_INPUT_DATA
  | FeatureXMLData _ | ConsensusXMLData _ =>
      (main_ param w).1 = Returned EXECUTION_OK
  | OtherData _ => True
  end.
Proof.
  intros Hr Hf Ht. destruct d as [prot_ids pep_ids doc|map|map|]; simpl in Ht.
  - intros Hone.
    destruct (flat_abort_general param o prot_ids pep_ids doc w Hr Ht Hf) as [run_id ->];
      [|done].
    apply position_missing_reached.
    destruct Hone as [[Hne (p & Hp & Hm)] | (p & rest & -> & Hm)]; [left|right].
    + split; [done|]. exists p. split; [done|]. unfold has_position.
      by destruct (hasRT p), (hasMZ p).
    + exists p, rest. split; [done|]. unfold has_position.
      by destruct (hasRT p), (hasMZ p).
  - by rewrite (feature_run param o Hr map w Ht Hf).
  - by rewrite (consensus_map_run param o Hr map w Ht Hf).
  - done.
Qed.

Lemma collected_first_at_centroid `{Collaborators} c grouping :
  collected c grouping = omap (first_at_centroid c) grouping.
Proof.
  induction grouping as [|g rest IH]; [done|].
  rewrite collected_cons, IH. simpl. unfold consensus_of_group, first_at_centroid.
  by destruct (consensus_apply c (cf_ids g)).
Qed.

(** C4.  Flat (idXML) input that runs to the end: the identifications stored
    are, group by group in the order in which the linker returned the groups,
    the first identification the scorer left in the group, with the RT and
    the m/z of the group for its own and its identifier, score type and hits
    unchanged; a group in which the scorer left nothing adds nothing
    ([first_at_centroid]). *)
Theorem flat_output_first_of_each_group `{Collaborators} (param : Param) (o : Options)
    (prot_ids : list ProteinIdentification) (pep_ids : list PeptideIdentification)
    (doc : string) (w : World) :
  read_options param = inr o →
  FileHandler_getType (fs w) (opt_in o) = IDXML →
  fs w !! opt_in o = Some (IdXMLData prot_ids pep_ids doc) →
  runs_to_end (IdXMLData prot_ids pep_ids doc) = true →
  ∃ maps before after,
    let c := flat_scorer param o (length prot_ids) in
    let grouping := cm_features (linker_group (linker_params_of o) maps) in
    (main_ param w).1 = Returned EXECUTION_OK
    ∧ trace (main_ param w).2 =
        trace w ++ before ++ EvGroup (linker_params_of o) maps :: after
    ∧ existsb is_group_event before = false
    ∧ existsb is_group_event after = false
    ∧ identifications <$> (fs (main_ param w).2 !! opt_out o)
      = Some (omap (first_at_centroid c) grouping)
    ∧ ∀ i p,
        omap (first_at_centroid c) grouping !! i = Some p →
        ∃ g first rest,
          g ∈ grouping
          ∧ consensus_apply c (cf_ids g) = first :: rest
          ∧ pep_rt p = Some (cf_rt g) ∧ pep_mz p = Some (cf_mz g)
          ∧ pep_identifier p = pep_identifier first
          ∧ pep_score_type p = pep_score_type first
          ∧ pep_hits p = pep_hits first.
Proof.
  intros Hr Ht Hf Hrun.
  destruct (flat_run_general param o prot_ids pep_ids doc w Hr Ht Hf Hrun) as [maps Hmain].
  exists maps, [EvLoad IDXML (opt_in o)]. eexists. intros c grouping.
  simpl in Hmain. rewrite Hmain. simpl. split_and!; [done|reflexivity|done| | |].
  - simpl. rewrite existsb_app. rewrite <- applies_of_consensus_features.
    by rewrite no_group_in_applies.
  - rewrite lookup_insert_eq. simpl. by rewrite collected_first_at_centroid.
  - intros i p Hp. apply list_elem_of_lookup_2, list_elem_of_omap in Hp as (g & Hg & Hfirst).
    unfold first_at_centroid in Hfirst.
    destruct (consensus_apply c (cf_ids g)) as [|first rest] eqn:E; [done|].
    simplify_eq. by exists g, first, rest.
Qed.

(** ** The featureXML and the consensusXML section *)

(** X8.  A featureXML run keeps the features.  The map stored has the
    features of the input, in their order and at their positions; each
    carries what the scorer left of its identifications, also when that is
    nothing. *)
Theorem featureXML_keeps_features `{Collaborators} (param : Param) (o : Options)
    (map : FeatureMap) (w : World) :
  read_options param = inr o →
  FileHandler_getType (fs w) (opt_in o) = FEATUREXML →
  fs w !! opt_in o = Some (FeatureXMLData map) →
  ∃ map',
    fs (main_ param w).2 !! opt_out o = Some (FeatureXMLData map')
    ∧ length (fm_features map') = length (fm_features map)
    ∧ ∀ i f,
        fm_features map !! i = Some f →
        ∃ f', fm_features map' !! i = Some f'
              ∧ feat_rt f' = feat_rt f ∧ feat_mz f' = feat_mz f
              ∧ feat_ids f' =
                  consensus_apply
                    (map_scorer param o (length (fm_protein_identifications map)))
                    (feat_ids f).
Proof.
  intros Hr Ht Hf. pose proof (feature_run param o Hr map w Ht Hf) as Hrun.
  simpl in Hrun. rewrite Hrun. simpl. eexists. split_and!.
  - apply lookup_insert_eq.
  - simpl. by rewrite length_fmap.
  - intros i f Hi. simpl. rewrite list_lookup_fmap, Hi. simpl. by eexists.
Qed.

(** X9.  A consensusXML run keeps the consensus features: the map stored has
    the consensus features of the input, in their order and at their
    positions, each with what the scorer left of its identifications. *)
Theorem consensusXML_keeps_features `{Collaborators} (param : Param) (o : Options)
    (map : ConsensusMap) (w : World) :
  read_options param = inr o →
  FileHandler_getType (fs w) (opt_in o) = CONSENSUSXML →
  fs w !! opt_in o = Some (ConsensusXMLData map) →
  ∃ map',
    fs (main_ param w).2 !! opt_out o = Some (ConsensusXMLData map')
    ∧ length (cm_features map') = length (cm_features map)
    ∧ ∀ i f,
        cm_features map !! i = Some f →
        ∃ f', cm_features map' !! i = Some f'
              ∧ cf_rt f' = cf_rt f ∧ cf_mz f' = cf_mz f
              ∧ cf_ids f' =
                  consensus_apply
                    (map_scorer param o (length (cm_protein_identifications map)))
                    (cf_ids f).
Proof.
  intros Hr Ht Hf. pose proof (consensus_map_run param o Hr map w Ht Hf) as Hrun.
  simpl in Hrun. rewrite Hrun. simpl. eexists. split_and!.
  - apply lookup_insert_eq.
  - simpl. by rewrite length_fmap.
  - intros i f Hi. simpl. rewrite list_lookup_fmap, Hi. simpl. by eexists.
Qed.

(** ** The maps of the idXML section *)

Lemma index_runs_other (prot_ids : list ProteinIdentification) :
  ∀ k id_mapping s,
    (∀ q, q ∈ prot_ids → prot_identifier q ≠ s) →
    index_runs k prot_ids id_mapping !! s = id_mapping !! s.
Proof.
  induction prot_ids as [|p rest IH]; intros k idm s Hs; simpl; [done|].
  rewrite IH.
  - apply lookup_insert_ne. apply Hs, list_elem_of_here.
  - intros q Hq. by apply Hs, list_elem_of_further.
Qed.

Lemma index_runs_lookup (prot_ids : list ProteinIdentification) :
  ∀ k id_mapping i p,
    prot_ids !! i = Some p →
    (∀ j q, i < j → prot_ids !! j = Some q → prot_identifier q ≠ prot_identifier p) →
    index_runs k prot_ids id_mapping !! prot_identifier p = Some (k + i).
Proof.
  induction prot_ids as [|p0 rest IH]; intros k idm i p Hi Hlater; [done|].
  destruct i as [|i]; simpl in *.
  - simplify_eq. rewrite index_runs_other.
    + rewrite lookup_insert_eq. f_equal. lia.
    + intros q Hq. apply list_elem_of_lookup in Hq as [j Hj].
      apply (Hlater (S j)); [lia|done].
  - rewrite (IH (S k) _ i p Hi).
    + f_equal. lia.
    + intros j q Hj Hq. apply (Hlater (S j)); [lia|done].
Qed.

(** X10.  The index of a run.  The index kept for the identifier of a run is
    the position of the run among the runs of the input; when several runs
    have the same identifier, it is the position of the last of them. *)
Theorem index_runs_last_wins (prot_ids : list ProteinIdentification) (i : nat)
    (p : ProteinIdentification) :
  prot_ids !! i = Some p →
  (∀ j q, i < j → prot_ids !! j = Some q → prot_identifier q ≠ prot_identifier p) →
  index_runs 0 prot_ids ∅ !! prot_identifier p = Some i.
Proof. intros Hi Hlater. by rewrite (index_runs_lookup prot_ids 0 ∅ i p Hi Hlater). Qed.

Lemma map_subscript_spec run_id (id_mapping : gmap string nat) i id_mapping' :
  map_subscript run_id id_mapping = (i, id_mapping') →
  i = default 0 (id_mapping !! run_id)
  ∧ ∀ s, default 0 (id_mapping' !! s) = default 0 (id_mapping !! s).
Proof.
  unfold map_subscript. destruct (id_mapping !! run_id) as [j|] eqn:E; intros ?; simplify_eq.
  - done.
  - split; [done|]. intros s. destruct (decide (run_id = s)) as [->|Hne].
    + by rewrite lookup_insert_eq, E.
    + by rewrite lookup_insert_ne.
Qed.

Lemma fill_maps_placement pep_ids : ∀ id_mapping maps,
  0 < length maps →
  map_Forall (λ _ v, v < length maps) id_mapping →
  forallb has_position pep_ids = true →
  ∃ id_mapping' maps',
    (∀ w, fill_maps pep_ids id_mapping maps w = (Normal (id_mapping', maps'), w))
    ∧ length maps' = length maps
    ∧ ∀ i m,
        maps !! i = Some m →
        ∃ m', maps' !! i = Some m'
              ∧ fm_protein_identifications m' = fm_protein_identifications m
              ∧ fm_features m' =
                  fm_features m ++
                  (feature_of <$> filter (λ p, run_index id_mapping p = i) pep_ids).
Proof.
  induction pep_ids as [|pep rest IH]; intros idm maps Hn Hb Hall; simpl in Hall.
  - exists idm, maps. split_and!; [done|done|]. intros i m Hm. exists m.
    by rewrite filter_nil, app_nil_r.
  - apply andb_true_iff in Hall as [Hp Hall].
    destruct (map_subscript (pep_identifier pep) idm) as [i0 idm'] eqn:E.
    destruct (map_subscript_bound _ _ _ _ _ Hn Hb E) as [Hi0 Hb'].
    destruct (map_subscript_spec _ _ _ _ E) as [Hidx Hsame].
    destruct (lookup_lt_is_Some_2 maps i0 Hi0) as [m0 Hm0].
    destruct (IH idm' (<[i0 := fm_push_back (feature_of pep) m0]> maps))
      as (idm'' & maps' & Hrun & Hlen & Hplace); rewrite ?length_insert; try done.
    exists idm'', maps'. split_and!.
    + intros w. simpl. rewrite position_test, Hp. simpl. rewrite E.
      unfold vector_update. rewrite Hm0, bind_unfold. simpl. apply Hrun.
    + by rewrite Hlen, length_insert.
    + intros i m Hm.
      assert (∀ l : list PeptideIdentification, filter (λ p, run_index idm' p = i) l
                   = filter (λ p, run_index idm p = i) l) as Hfilter.
      { intros l. apply list_filter_iff. intros p. unfold run_index. by rewrite Hsame. }
      destruct (decide (i = i0)) as [->|Hne].
      * destruct (Hplace i0 (fm_push_back (feature_of pep) m0)) as (m' & Hm' & Hprot & Hfeat).
        { by rewrite list_lookup_insert_eq. }
        exists m'. rewrite Hm0 in Hm. simplify_eq. split_and!; [done|done|].
        rewrite Hfeat, Hfilter. simpl. rewrite filter_cons_True by done.
        by rewrite <- app_assoc.
      * destruct (Hplace i m) as (m' & Hm' & Hprot & Hfeat).
        { by rewrite list_lookup_insert_ne. }
        exists m'. split_and!; [done|done|].
        rewrite Hfeat, Hfilter. rewrite filter_cons_False; [done|].
        unfold run_index. by rewrite <- Hidx.
Qed.

(** X11.  Where the identifications go.  With at least one run, and every
    identification at its position, the loop over the identifications leaves
    one map per run; the map with index [i] holds, in the order of the input,
    one feature per identification whose run has the index [i], at the RT and
    m/z of the identification and with it as only identification.  An
    identification whose run is not among the runs of the input goes to the
    first map. *)
Theorem identifications_go_to_the_map_of_their_run
    (prot_ids : list ProteinIdentification) (pep_ids : list PeptideIdentification)
    (w : World) :
  prot_ids ≠ [] →
  forallb has_position pep_ids = true →
  ∃ id_mapping maps,
    fill_maps pep_ids (index_runs 0 prot_ids ∅)
              (replicate (length prot_ids) FeatureMap_default) w
    = (Normal (id_mapping, maps), w)
    ∧ length maps = length prot_ids
    ∧ ∀ i, i < length prot_ids →
        fm_features <$> maps !! i =
        Some (feature_of <$>
              filter (λ p, default 0 (index_runs 0 prot_ids ∅ !! pep_identifier p) = i)
                     pep_ids).
Proof.
  intros Hne Hall. destruct (maps_in_range prot_ids Hne) as [Hn Hb].
  destruct (fill_maps_placement pep_ids _ _ Hn Hb Hall) as (idm & maps & Hrun & Hlen & Hplace).
  exists idm, maps. split_and!; [done|by rewrite Hlen, length_replicate|].
  intros i Hi.
  destruct (Hplace i FeatureMap_default) as (m' & Hm' & _ & Hfeat).
  { by apply lookup_replicate_2. }
  rewrite Hm'. simpl. by rewrite Hfeat.
Qed.

(** ** The defaults of the subsections *)




(** ** The options the tool registers and the options it reads *)

Lemma registered_in :
  findEntry_ "in" = Some (mkParameterInformation "in" INPUT_FILE (StringValue "") true
                            ["idXML"; "featureXML"; "consensusXML"] None None).
Proof. reflexivity. Qed.

Lemma registered_out :
  findEntry_ "out" = Some (mkParameterInformation "out" OUTPUT_FILE (StringValue "") true
                             ["idXML"; "featureXML"; "consensusXML"] None None).
Proof. reflexivity. Qed.

Lemma registered_rt_delta :
  findEntry_ "rt_delta" =
  Some (mkParameterInformation "rt_delta" DOUBLE (DoubleValue 0.1) false [] None (Some 0%float)).
Proof. reflexivity. Qed.

Lemma registered_mz_delta :
  findEntry_ "mz_delta" =
  Some (mkParameterInformation "mz_delta" DOUBLE (DoubleValue 0.1) false [] None (Some 0%float)).
Proof. reflexivity. Qed.

Lemma registered_considered_hits :
  findEntry_ "considered_hits" =
  Some (mkParameterInformation "considered_hits" INT (IntValue 10) false [] (Some 0%Z) None).
Proof. reflexivity. Qed.

Lemma registered_algorithm :
  findEntry_ "algorithm" =
  Some (mkParameterInformation "algorithm" STRING (StringValue "PEPMatrix") false
          ["PEPMatrix"; "PEPIons"; "best"; "average"; "ranks"] None None).
Proof. reflexivity. Qed.

Lemma read_algorithm (param : Param) (o : Options) :
  read_options param = inr o →
  getStringOption_ param "algorithm" = inr (opt_algorithm o).
Proof.
  unfold read_options. intros Hr.
  destruct (getStringOption_ param "in"); [done|].
  destruct (getStringOption_ param "out"); [done|].
  destruct (getDoubleOption_ param "rt_delta"); [done|].
  destruct (getDoubleOption_ param "mz_delta"); [done|].
  destruct (getStringOption_ param "algorithm"); [done|].
  destruct (getIntOption_ param "considered_hits"); by simplify_eq.
Qed.

(** X14.  The scorer chosen.  When the options are read, the algorithm is one
    of the five registered names and the scorer instantiated is the one of
    that name: the last branch of the selection is taken for "ranks" only. *)
Theorem scorer_of_registered_algorithm (param : Param) (o : Options) :
  read_options param = inr o →
  (opt_algorithm o = "PEPMatrix" ∧ algorithm_of param o = PEPMatrix)
  ∨ (opt_algorithm o = "PEPIons" ∧ algorithm_of param o = PEPIons)
  ∨ (opt_algorithm o = "best" ∧ algorithm_of param o = Best)
  ∨ (opt_algorithm o = "average" ∧ algorithm_of param o = Average)
  ∨ (opt_algorithm o = "ranks" ∧ algorithm_of param o = Ranks).
Proof.
  intros Hr. pose proof (read_algorithm param o Hr) as Ha.
  unfold getStringOption_ in Ha. rewrite registered_algorithm in Ha. simpl in Ha.
  assert (opt_algorithm o ∈ ["PEPMatrix"; "PEPIons"; "best"; "average"; "ranks"]) as Hin.
  { destruct (param !! "algorithm") as [[|s| |]|]; simpl in Ha; try done;
      try case_bool_decide; simplify_eq;
      first [done | rewrite <- Ha; apply list_elem_of_here]. }
  unfold algorithm_of.
  repeat (apply elem_of_cons in Hin as [->|Hin]; [by auto 10|]).
  by apply elem_of_nil in Hin.
Qed.

(** ** The further properties at concrete inputs *)

Lemma undefined_iff_no_run_witness :
  (@main_ ex_collaborators (ex_param "no_run.idXML" "out.idXML" "best") ex_world_no_run).1
  = Undefined.
Proof.
  apply (undefined_iff_no_run (H := ex_collaborators)).
  exists (ex_options "no_run.idXML" "out.idXML" "best"), [], ex_pep_ids, "doc".
  split; [reflexivity|]. split; [reflexivity|]. split; reflexivity.
Defined.

Lemma incompatible_iff_position_missing_witness :
  (@main_ ex_collaborators (ex_param "flat_no_mz.idXML" "out.idXML" "best") (ex_world 0)).1
  = Returned INCOMPATIBLE_INPUT_DATA.
Proof.
  apply (incompatible_iff_position_missing (H := ex_collaborators)).
  exists (ex_options "flat_no_mz.idXML" "out.idXML" "best"), ex_prot_ids, ex_pep_ids_no_mz, "doc".
  split; [reflexivity|]. split; [reflexivity|]. split; reflexivity.
Defined.

Lemma success_iff_witness :
  (@main_ ex_collaborators (ex_param "flat.idXML" "out.idXML" "best") (ex_world 0)).1
  = Returned EXECUTION_OK.
Proof.
  apply (success_iff (H := ex_collaborators)).
  exists (ex_options "flat.idXML" "out.idXML" "best"). split; [reflexivity|].
  right. exists (IdXMLData ex_prot_ids ex_pep_ids "doc").
  split; [reflexivity|]. split; reflexivity.
Defined.

Lemma only_output_written_on_success_witness :
  ∃ o, read_options (ex_param "flat.idXML" "out.idXML" "best") = inr o
       ∧ "out.idXML" = opt_out o
       ∧ (@main_ ex_collaborators (ex_param "flat.idXML" "out.idXML" "best") (ex_world 0)).1
         = Returned EXECUTION_OK.
Proof.
  apply (only_output_written_on_success (H := ex_collaborators)
           (ex_param "flat.idXML" "out.idXML" "best") (ex_world 0) "out.idXML").
  vm_compute. intros E. discriminate E.
Defined.

Lemma featureXML_keeps_features_witness :
  ∃ map',
    fs (@main_ ex_collaborators (ex_param "features.featureXML" "out.featureXML" "best")
               (ex_world 0)).2 !! "out.featureXML" = Some (FeatureXMLData map')
    ∧ length (fm_features map') = 1.
Proof.
  destruct (featureXML_keeps_features (H := ex_collaborators)
              (ex_param "features.featureXML" "out.featureXML" "best")
              (ex_options "features.featureXML" "out.featureXML" "best")
              ex_feature_map (ex_world 0) eq_refl eq_refl eq_refl)
    as (map' & Hout & Hlen & _).
  exists map'. split; [exact Hout | exact Hlen].
Defined.

Lemma consensusXML_keeps_features_witness :
  ∃ map',
    fs (@main_ ex_collaborators (ex_param "groups.consensusXML" "out.consensusXML" "best")
               (ex_world 0)).2 !! "out.consensusXML" = Some (ConsensusXMLData map')
    ∧ length (cm_features map') = 1.
Proof.
  destruct (consensusXML_keeps_features (H := ex_collaborators)
              (ex_param "groups.consensusXML" "out.consensusXML" "best")
              (ex_options "groups.consensusXML" "out.consensusXML" "best")
              ex_consensus_map (ex_world 0) eq_refl eq_refl eq_refl)
    as (map' & Hout & Hlen & _).
  exists map'. split; [exact Hout | exact Hlen].
Defined.

Lemma index_runs_last_wins_witness :
  index_runs 0 ex_prot_ids_twice ∅ !! "B" = Some 2.
Proof.
  apply (index_runs_last_wins ex_prot_ids_twice 2 (ex_run "B")); [reflexivity|].
  intros [|[|[|j]]] q Hj Hq; try lia; discriminate Hq.
Defined.

Lemma identifications_go_to_the_map_of_their_run_witness :
  ∃ id_mapping maps,
    fill_maps ex_pep_ids (index_runs 0 ex_prot_ids ∅)
              (replicate 3 FeatureMap_default) (ex_world 0)
    = (Normal (id_mapping, maps), ex_world 0)
    ∧ length maps = 3.
Proof.
  destruct (identifications_go_to_the_map_of_their_run ex_prot_ids ex_pep_ids (ex_world 0))
    as (idm & maps & Hrun & Hlen & _); [discriminate | reflexivity |].
  exists idm, maps. split; [exact Hrun | exact Hlen].
Defined.


Lemma scorer_of_registered_algorithm_witness :
  algorithm_of (ex_param "flat.idXML" "out.idXML" "average")
               (ex_options "flat.idXML" "out.idXML" "average") = Average.
Proof.
  destruct (scorer_of_registered_algorithm
              (ex_param "flat.idXML" "out.idXML" "average")
              (ex_options "flat.idXML" "out.idXML" "average") eq_refl)
    as [[E _]|[[E _]|[[E _]|[[_ Ha]|[E _]]]]]; try discriminate E. exact Ha.
Defined.

(** ** The claims C1, C2 and C4 at concrete inputs *)


(** C2.  A featureXML file holds an identification with RT and without m/z,
    and the run on it does not fail: [main_] returns EXECUTION_OK.  And on
    an idXML file without any run, an identification with RT and without
    m/z that is not the first one is not reported either. *)
Lemma pregrouped_missing_mz_succeeds :
  ex_files !! "features.featureXML" = Some (FeatureXMLData ex_feature_map)
  ∧ (∃ p, p ∈ identifications (FeatureXMLData ex_feature_map)
          ∧ hasRT p = true ∧ hasMZ p = false)
  ∧ (@main_ ex_collaborators (ex_param "features.featureXML" "out.featureXML" "best")
            (ex_world 0)).1 = Returned EXECUTION_OK
  ∧ (@main_ ex_collaborators (ex_param "features.featureXML" "out.featureXML" "best")
            (ex_world 0)).1 ≠ Returned INCOMPATIBLE_INPUT_DATA
  ∧ fs ex_world_no_run_no_mz !! "no_run_no_mz.idXML"
    = Some (IdXMLData [] ex_pep_ids_no_mz "doc")
  ∧ (∃ p, p ∈ ex_pep_ids_no_mz ∧ hasRT p = true ∧ hasMZ p = false)
  ∧ (@main_ ex_collaborators (ex_param "no_run_no_mz.idXML" "out.idXML" "best")
            ex_world_no_run_no_mz).1 ≠ Returned INCOMPATIBLE_INPUT_DATA.
Proof.
  assert ((@main_ ex_collaborators (ex_param "features.featureXML" "out.featureXML" "best")
             (ex_world 0)).1 = Returned EXECUTION_OK) as Hrun by (by vm_compute).
  assert ((@main_ ex_collaborators (ex_param "no_run_no_mz.idXML" "out.idXML" "best")
             ex_world_no_run_no_mz).1 = Undefined) as Hno by (by vm_compute).
  split_and!; [done| |done|by rewrite Hrun|done| |by rewrite Hno].
  - exists (ex_pep "B" (Some 100%float) None "Mascot" "PEPTIDEA" 0.25).
    split_and!; [|done|done]. simpl. apply list_elem_of_further, list_elem_of_here.
  - exists (ex_pep "B" (Some 100%float) None "Mascot" "PEPTIDEA" 0.25).
    split_and!; [|done|done]. apply list_elem_of_further, list_elem_of_here.
Qed.


Lemma position_check_by_input_shape_witness :
  (@main_ ex_collaborators (ex_param "flat_no_mz.idXML" "out.idXML" "best")
          (ex_world 0)).1 = Returned INCOMPATIBLE_INPUT_DATA
  ∧ (@main_ ex_collaborators (ex_param "features.featureXML" "out.featureXML" "best")
            (ex_world 0)).1 = Returned EXECUTION_OK
  ∧ (@main_ ex_collaborators (ex_param "groups.consensusXML" "out.consensusXML" "best")
            (ex_world 0)).1 = Returned EXECUTION_OK.
Proof.
  split; [|split].
  - apply (position_check_by_input_shape (H := ex_collaborators)
             (ex_param "flat_no_mz.idXML" "out.idXML" "best")
             (ex_options "flat_no_mz.idXML" "out.idXML" "best")
             (IdXMLData ex_prot_ids ex_pep_ids_no_mz "doc") (ex_world 0)
             eq_refl eq_refl eq_refl).
    left. split; [discriminate|].
    exists (ex_pep "B" (Some 100%float) None "Mascot" "PEPTIDEA" 0.25).
    split; [apply list_elem_of_further, list_elem_of_here | discriminate].
  - exact (position_check_by_input_shape (H := ex_collaborators)
             (ex_param "features.featureXML" "out.featureXML" "best")
             (ex_options "features.featureXML" "out.featureXML" "best")
             (FeatureXMLData ex_feature_map) (ex_world 0) eq_refl eq_refl eq_refl).
  - exact (position_check_by_input_shape (H := ex_collaborators)
             (ex_param "groups.consensusXML" "out.consensusXML" "best")
             (ex_options "groups.consensusXML" "out.consensusXML" "best")
             (ConsensusXMLData ex_consensus_map) (ex_world 0) eq_refl eq_refl eq_refl).
Defined.

Lemma flat_output_first_of_each_group_witness :
  ∃ maps,
    (@main_ ex_collaborators (ex_param "flat.idXML" "out.idXML" "best") (ex_world 0)).1
    = Returned EXECUTION_OK
    ∧ identifications <$>
        (fs (@main_ ex_collaborators (ex_param "flat.idXML" "out.idXML" "best")
                    (ex_world 0)).2 !! "out.idXML")
      = Some (omap (first_at_centroid (H := ex_collaborators)
                      (flat_scorer (ex_param "flat.idXML" "out.idXML" "best")
                                   (ex_options "flat.idXML" "out.idXML" "best") 3))
                   (cm_features
                      (ex_group (linker_params_of (H := ex_collaborators)
                                   (ex_options "flat.idXML" "out.idXML" "best")) maps))).
Proof.
  destruct (flat_output_first_of_each_group (H := ex_collaborators)
              (ex_param "flat.idXML" "out.idXML" "best")
              (ex_options "flat.idXML" "out.idXML" "best")
              ex_prot_ids ex_pep_ids "doc" (ex_world 0) eq_refl eq_refl eq_refl eq_refl)
    as (maps & before & after & Hok & _ & _ & _ & Hids & _).
  exists maps. split; [exact Hok | exact Hids].
Defined.
